(* Shallow embedding of the flow engine of multisync (src/src/core.mjs):
   the JSON-Schema translator, config validation, the agent registry
   builder, the two step executors and the flow runner.

   The LLM invocation primitive [run] of @openai/agents, the MCP connect
   call, the JavaScript engine behind [new Function] and [JSON.stringify]
   are external collaborators: they are section variables, so every
   theorem holds for all of their behaviours. *)

From Stdlib Require Import String Ascii List ZArith Bool Lia.
Import ListNotations.
Open Scope list_scope.
Open Scope string_scope.
Set Warnings "-register-all".

(* ------------------------------------------------------------------ *)
(** * JavaScript values *)

Module Js.

(** JSON-shaped runtime values.  Numbers are integers (the code only
    compares turn counters and tests truthiness); [VFun] stands for a
    built-in function object such as [Object.prototype.toString], which
    an object literal exposes through its prototype. *)
Inductive value : Type :=
| VUndef
| VNull
| VBool (b : bool)
| VNum (z : Z)
| VStr (s : string)
| VArr (l : list value)
| VObj (fields : list (string * value))
| VFun (name : string).

(** JavaScript truthiness ([!!v]). *)
Definition truthy (v : value) : bool :=
  match v with
  | VUndef | VNull => false
  | VBool b => b
  | VNum z => negb (Z.eqb z 0)
  | VStr s => negb (String.eqb s "")
  | VArr _ | VObj _ | VFun _ => true
  end.

Definition nullish (v : value) : bool :=
  match v with VUndef | VNull => true | _ => false end.

(** Own-field lookup in an object literal. *)
Fixpoint obj_get (fs : list (string * value)) (k : string) : value :=
  match fs with
  | [] => VUndef
  | (k', v) :: r => if String.eqb k k' then v else obj_get r k
  end.

(** Assignment [o[k] = v]: an existing key keeps its position. *)
Fixpoint obj_set (fs : list (string * value)) (k : string) (v : value)
  : list (string * value) :=
  match fs with
  | [] => [(k, v)]
  | (k', v') :: r =>
      if String.eqb k k' then (k', v) :: r else (k', v') :: obj_set r k v
  end.

(** The members every object literal inherits from [Object.prototype]. *)
Definition object_prototype_keys : list string :=
  [ "constructor"; "hasOwnProperty"; "isPrototypeOf";
    "propertyIsEnumerable"; "toString"; "toLocaleString"; "valueOf";
    "__proto__"; "__defineGetter__"; "__defineSetter__";
    "__lookupGetter__"; "__lookupSetter__" ].

Definition is_proto_key (k : string) : bool :=
  existsb (String.eqb k) object_prototype_keys.

(** What [d[k]] yields on a dictionary built as an object literal:
    an own entry, an inherited [Object.prototype] member, or [undefined].
    (Assigning the key [__proto__], which relinks the prototype, is not
    modelled.) *)
Inductive slot (A : Type) : Type :=
| Own (a : A)
| Inherited (k : string)
| Missing.
Arguments Own {A} a.
Arguments Inherited {A} k.
Arguments Missing {A}.

Fixpoint dict_get {A} (d : list (string * A)) (k : string) : slot A :=
  match d with
  | [] => if is_proto_key k then Inherited k else Missing
  | (k', a) :: r => if String.eqb k k' then Own a else dict_get r k
  end.

Definition slot_truthy {A} (s : slot A) : bool :=
  match s with Missing => false | _ => true end.

(** [d[k]] on a dictionary whose entries are values. *)
Definition dict_value (d : list (string * value)) (k : string) : value :=
  match dict_get d k with
  | Own v => v
  | Inherited "__proto__" => VObj []
  | Inherited n => VFun n
  | Missing => VUndef
  end.

(** A property key written from an optional string ([undefined] when absent). *)
Definition key_of (o : option string) : string :=
  match o with Some s => s | None => "undefined" end.

(** The double-quote character. *)
Definition dq : string := String (ascii_of_nat 34) EmptyString.

(** Decimal rendering of an integer. *)
Fixpoint digits (fuel : nat) (n : N) (acc : string) : string :=
  match fuel with
  | O => acc
  | S f =>
      let acc' := String (ascii_of_N (48 + N.modulo n 10)) acc in
      if (n <? 10)%N then acc' else digits f (N.div n 10) acc'
  end.

Definition Z_to_string (z : Z) : string :=
  match z with
  | Z0 => "0"
  | Zpos p => digits (Pos.to_nat p) (Npos p) ""
  | Zneg p => "-" ++ digits (Pos.to_nat p) (Npos p) ""
  end.

(** Index-keyed entries, as [Object.entries] and spreading give them for
    arrays and strings. *)
Fixpoint indexed {A} (i : nat) (l : list A) : list (string * A) :=
  match l with
  | [] => []
  | x :: r => (Z_to_string (Z.of_nat i), x) :: indexed (S i) r
  end.

Fixpoint chars (s : string) : list value :=
  match s with
  | EmptyString => []
  | String c r => VStr (String c EmptyString) :: chars r
  end.

(** [String(v)], as a template literal renders a value. *)
Fixpoint to_string (v : value) : string :=
  match v with
  | VUndef => "undefined"
  | VNull => "null"
  | VBool true => "true"
  | VBool false => "false"
  | VNum z => Z_to_string z
  | VStr s => s
  | VArr l =>
      (fix join (l : list value) : string :=
         match l with
         | [] => ""
         | [x] => if nullish x then "" else to_string x
         | x :: r => (if nullish x then "" else to_string x) ++ "," ++ join r
         end) l
  | VObj _ => "[object Object]"
  | VFun n => "function " ++ n ++ "() { [native code] }"
  end.

(** [Object.entries(v)] (own enumerable string-keyed entries). *)
Definition object_entries (v : value) : list (string * value) :=
  match v with
  | VObj fs => fs
  | VArr l => indexed 0 l
  | VStr s => indexed 0 (chars s)
  | _ => []
  end.

(** Property read [v.k] on a non-nullish value for the fixed keys the code
    reads ([type], [properties], [result], [feedback], ...); none of them is
    an inherited member of a primitive or of a function. *)
Definition member (v : value) (k : string) : value :=
  match v with
  | VObj fs => obj_get fs k
  | _ => VUndef
  end.

(** Spreading [...v] into an object literal. *)
Definition spread_fields (v : value) : list (string * value) :=
  match v with
  | VObj fs => fs
  | VArr l => indexed 0 l
  | VStr s => indexed 0 (chars s)
  | _ => []
  end.

End Js.
Import Js.

(* ------------------------------------------------------------------ *)
(** * Completions: a value or a thrown error *)

Inductive res (A : Type) : Type :=
| Ok (a : A)
| Throw (msg : string).
Arguments Ok {A} a.
Arguments Throw {A} msg.

Definition bind {A B} (r : res A) (f : A -> res B) : res B :=
  match r with Ok a => f a | Throw m => Throw m end.

Notation "x <- r ;; k" := (bind r (fun x => k))
  (at level 61, r at next level, right associativity).

Definition is_throw {A} (r : res A) : bool :=
  match r with Ok _ => false | Throw _ => true end.

(** [s.includes(t)] on strings. *)
Definition str_includes (s t : string) : bool :=
  match String.index 0 t s with Some _ => true | None => false end.

(** [a || b]. *)
Definition or_else (a b : value) : value := if truthy a then a else b.

(** [v === "s"]. *)
Definition is_str (v : value) (s : string) : bool :=
  match v with VStr s' => String.eqb s' s | _ => false end.

(** [v.k] where [v] may be [null] or [undefined] (a TypeError then). *)
Definition get (v : value) (k : string) : res value :=
  if nullish v
  then Throw ("TypeError: Cannot read properties of " ++ to_string v
              ++ " (reading '" ++ k ++ "')")
  else Ok (member v k).

(* ------------------------------------------------------------------ *)
(** * JSON Schema to Zod ([jsonSchemaToZod], core.mjs lines 23-56) *)

(** The Zod validators the translator builds.  [z.enum] receives the raw
    [schema.enum] value. *)
Inductive zod : Type :=
| ZAny
| ZString
| ZEnum (values : value)
| ZNumber
| ZBoolean
| ZArray (item : zod)
| ZObject (shape : list (string * zod)) (strict : bool)
| ZOptional (inner : zod).

(** [new Set(v)]: iterates arrays and strings; [undefined]/[null] give the
    empty set; any other value is not iterable. *)
Definition new_set (v : value) : res (list value) :=
  match v with
  | VUndef | VNull => Ok []
  | VArr l => Ok l
  | VStr s => Ok (chars s)
  | _ => Throw ("TypeError: " ++ to_string v ++ " is not iterable")
  end.

(** [set.has(k)] for a string key (SameValueZero). *)
Definition set_has (st : list value) (k : string) : bool :=
  existsb (fun x => is_str x k) st.

Fixpoint value_size (v : value) : nat :=
  match v with
  | VArr l => S (fold_right (fun x n => value_size x + n) 0 l)
  | VObj fs => S (fold_right (fun p n => value_size (snd p) + n) 0 fs)
  | _ => 1
  end.

(** The translator, with the JavaScript call stack as fuel: running out of
    it is the engine's RangeError. *)
Fixpoint toZod (fuel : nat) (schema : value) : res zod :=
  match fuel with
  | O => Throw "RangeError: Maximum call stack size exceeded"
  | S f =>
    if negb (truthy schema) then Ok ZAny else
    let ty := member schema "type" in
    if is_str ty "string" then
      Ok (if truthy (member schema "enum") then ZEnum (member schema "enum") else ZString)
    else if is_str ty "number" || is_str ty "integer" then Ok ZNumber
    else if is_str ty "boolean" then Ok ZBoolean
    else if is_str ty "array" then
      it <- toZod f (or_else (member schema "items") (VObj [])) ;;
      Ok (ZArray it)
    else if is_str ty "object" || truthy (member schema "properties") then
      req <- new_set (or_else (member schema "required") (VArr [])) ;;
      shape <- (fix go (es : list (string * value)) : res (list (string * zod)) :=
                  match es with
                  | [] => Ok []
                  | (k, v) :: r =>
                      zf <- toZod f v ;;
                      let zf := if set_has req k then zf else ZOptional zf in
                      rest <- go r ;;
                      Ok ((k, zf) :: rest)
                  end) (object_entries (or_else (member schema "properties") (VObj []))) ;;
      Ok (ZObject shape (match member schema "additionalProperties" with
                         | VBool false => true | _ => false end))
    else Ok ZAny
  end.

(** Nesting depth never exceeds the size of the schema. *)
Definition jsonSchemaToZod (schema : value) : res zod :=
  toZod (S (value_size schema)) schema.

(* ------------------------------------------------------------------ *)
(** * Configuration (WorkflowConfig) *)

Record ToolSpec := {
  t_kind : option string;
  t_ref : option string;
  t_id : option string;
  t_description : option string }.

Record AgentSpec := {
  a_name : option string;
  a_instructions : option string;
  a_outputSchemaRef : option string;
  a_modelSettings : value;
  a_mcpServerRefs : option (list string);
  a_tools : option (list ToolSpec) }.

Record ServerSpec := {
  s_type : option string;
  s_name : option string;
  s_fullCommand : option string;
  s_args : option (list string);
  s_url : option string }.

(** A flow step; [st_maxTurns] and [st_carryHistory] ([io.carryHistory])
    are kept as raw values because the code tests them with [typeof] and
    [!== false]. *)
Record StepSpec := {
  st_type : option string;
  st_agentRef : option string;
  st_proposalAgentRef : option string;
  st_reviewerAgentRef : option string;
  st_passCondition : option string;
  st_maxTurns : value;
  st_feedbackInjection : option string;
  st_carryHistory : value }.

Record FlowSpec := { flow_steps : option (list StepSpec) }.

Record Config := {
  outputSchemas : option (list (string * value));
  agents : option (list (string * AgentSpec));
  mcpServers : option (list (string * ServerSpec));
  flow : option FlowSpec }.

(** [s || default] on an optional string. *)
Definition or_str (o : option string) (d : string) : string :=
  match o with Some s => if String.eqb s "" then d else s | None => d end.

Definition opt_list {A} (o : option (list A)) : list A :=
  match o with Some l => l | None => [] end.

(* ------------------------------------------------------------------ *)
(** * [validateConfig] (core.mjs lines 59-85) *)

(** [schema.required?.includes('result')]. *)
Definition requires_result (req : value) : res bool :=
  match req with
  | VUndef | VNull => Ok false
  | VArr l => Ok (existsb (fun x => is_str x "result") l)
  | VStr s => Ok (str_includes s "result")
  | _ => Throw "TypeError: schema.required?.includes is not a function"
  end.

Definition quoted (s : string) : string := dq ++ s ++ dq.

Fixpoint check_schemas (l : list (string * value)) : res unit :=
  match l with
  | [] => Ok tt
  | (name, schema) :: r =>
      props <- get schema "properties" ;;
      if negb (truthy (if nullish props then VUndef else member props "result"))
      then Throw ("Output schema " ++ quoted name ++ " must have "
                  ++ quoted "result" ++ " property")
      else
        req <- get schema "required" ;;
        inc <- requires_result req ;;
        if negb inc
        then Throw ("Output schema " ++ quoted name ++ " must require "
                    ++ quoted "result")
        else check_schemas r
  end.

Fixpoint check_agents (schemas : option (list (string * value)))
         (l : list (string * AgentSpec)) : res unit :=
  match l with
  | [] => Ok tt
  | (id, a) :: r =>
      match a_outputSchemaRef a with
      | None | Some "" =>
          Throw ("Agent " ++ quoted id ++ " must have outputSchemaRef")
      | Some ref =>
          let found := match schemas with
                       | None => VUndef
                       | Some d => dict_value d ref
                       end in
          if negb (truthy found)
          then Throw ("Agent " ++ quoted id ++ " references unknown schema "
                      ++ quoted ref)
          else check_agents schemas r
      end
  end.

Definition validateConfig (config : Config) : res unit :=
  match flow config with
  | None => Throw ("Configuration must contain a " ++ quoted "flow" ++ " property")
  | Some fl =>
      match flow_steps fl with
      | None | Some [] => Throw "Flow must contain at least one step"
      | Some _ =>
          _ <- check_schemas (opt_list (outputSchemas config)) ;;
          check_agents (outputSchemas config) (opt_list (agents config))
      end
  end.

(* ------------------------------------------------------------------ *)
(** * Registries ([buildMcpServers], [buildAgents], core.mjs lines 88-153) *)

(** What the MCP registry holds: an [MCPServerStdio] handle, or the raw
    [cfg.url] of an http server. *)
Inductive mcp_handle : Type :=
| McpStdio (name : string) (fullCommand : string)
| McpHttp (url : option string).

(** An entry of an agent's [mcpServers] array: [mcpRegistry[ref]] is a
    registry handle or an inherited [Object.prototype] member. *)
Inductive mcp_ref : Type :=
| MRHandle (h : mcp_handle)
| MRBuiltin (k : string).

(** [new Agent({...})] and [agent.asTool({...})] of @openai/agents, kept as
    the data they are constructed from. *)
Inductive agent : Type :=
| Agent (name : string) (instructions : string) (outputType : zod)
        (modelSettings : value) (mcpServers : list mcp_ref) (tools : list tool)
with tool : Type :=
| AsTool (toolName : option string) (toolDescription : string) (of_agent : agent).

(** [(a.mcpServerRefs || []).map(ref => mcpRegistry[ref]).filter(Boolean)] *)
Fixpoint resolve_mcp (reg : list (string * mcp_handle)) (refs : list string)
  : list mcp_ref :=
  match refs with
  | [] => []
  | ref :: r =>
      match dict_get reg ref with
      | Own (McpHttp None) | Own (McpHttp (Some "")) | Missing => resolve_mcp reg r
      | Own h => MRHandle h :: resolve_mcp reg r
      | Inherited k => MRBuiltin k :: resolve_mcp reg r
      end
  end.

(** [o === "s"] on an optional string. *)
Definition opt_is (o : option string) (s : string) : bool :=
  match o with Some s' => String.eqb s' s | None => false end.

(** [name: t.id || t.ref] *)
Definition tool_name (t : ToolSpec) : option string :=
  match t_id t with
  | Some s => if String.eqb s "" then t_ref t else Some s
  | None => t_ref t
  end.

(** The pass-2 tool loop: an [agent]-kind tool whose [base[t.ref]] is
    truthy is wrapped with [asTool]; every other entry is skipped.  On an
    inherited [Object.prototype] member [.asTool] is not a function. *)
Fixpoint build_tools (base : list (string * agent)) (ts : list ToolSpec)
  : res (list tool) :=
  match ts with
  | [] => Ok []
  | t :: r =>
      if opt_is (t_kind t) "agent"
         && slot_truthy (dict_get base (key_of (t_ref t)))
      then
        match dict_get base (key_of (t_ref t)) with
        | Own b =>
            rest <- build_tools base r ;;
            Ok (AsTool (tool_name t)
                  (or_str (t_description t) ("Tool for agent " ++ key_of (t_ref t)))
                  b :: rest)
        | _ => Throw "TypeError: base[t.ref].asTool is not a function"
        end
      else build_tools base r
  end.

(** [o[k] = v] on a dictionary being filled, for a key other than
    ["__proto__"]: assigning that key relinks the prototype (an object
    value) or is ignored (a primitive value), which is not modelled; the
    properties of dictionaries built from configured ids below assume no
    id is ["__proto__"]. *)
Fixpoint dict_set {A} (d : list (string * A)) (k : string) (a : A)
  : list (string * A) :=
  match d with
  | [] => [(k, a)]
  | (k', a') :: r => if String.eqb k k' then (k', a) :: r else (k', a') :: dict_set r k a
  end.

Definition make_agent (reg : list (string * mcp_handle))
           (outputSchemas : list (string * value)) (id : string) (a : AgentSpec)
           (tools : list tool) : res agent :=
  zodSchema <- jsonSchemaToZod (dict_value outputSchemas (key_of (a_outputSchemaRef a))) ;;
  Ok (Agent (or_str (a_name a) id) (or_str (a_instructions a) "") zodSchema
            (or_else (a_modelSettings a) (VObj []))
            (resolve_mcp reg (opt_list (a_mcpServerRefs a))) tools).

(** Pass 1: the tool-less [base] agents. *)
Definition pass1 (entries : list (string * AgentSpec))
           (mcpRegistry : list (string * mcp_handle))
           (outputSchemas : list (string * value)) : res (list (string * agent)) :=
  fold_left
    (fun acc '(id, a) =>
       base <- acc ;;
       b <- make_agent mcpRegistry outputSchemas id a [] ;;
       Ok (dict_set base id b)) entries (Ok []).

(** Pass 2: the [finalAgents], with their tools wrapped from [base]. *)
Definition pass2 (entries : list (string * AgentSpec))
           (mcpRegistry : list (string * mcp_handle))
           (outputSchemas : list (string * value))
           (base : list (string * agent)) : res (list (string * agent)) :=
  fold_left
    (fun acc '(id, a) =>
       fin <- acc ;;
       tools <- build_tools base (opt_list (a_tools a)) ;;
       f <- make_agent mcpRegistry outputSchemas id a tools ;;
       Ok (dict_set fin id f)) entries (Ok []).

(** [buildAgents] returns the final agents together with the lines it
    writes to the console (it writes none). *)
Definition buildAgents (agentsConfig : option (list (string * AgentSpec)))
           (mcpRegistry : list (string * mcp_handle))
           (outputSchemas : list (string * value))
  : res (list (string * agent)) * list string :=
  let entries := opt_list agentsConfig in
  (base <- pass1 entries mcpRegistry outputSchemas ;;
   pass2 entries mcpRegistry outputSchemas base, []).

(** The server registry: stdio servers become handles (and are connected
    afterwards), http servers register their URL, other types are skipped. *)
Fixpoint lower_ascii (s : string) : string :=
  match s with
  | EmptyString => EmptyString
  | String c r =>
      let n := nat_of_ascii c in
      String (if Nat.leb 65 n && Nat.leb n 90 then ascii_of_nat (n + 32) else c)
             (lower_ascii r)
  end.

Fixpoint join_space (l : list string) : string :=
  match l with
  | [] => ""
  | [x] => x
  | x :: r => x ++ " " ++ join_space r
  end.

Definition server_entry (id : string) (cfg : ServerSpec) : option mcp_handle :=
  match option_map lower_ascii (s_type cfg) with
  | Some "stdio" =>
      let full := join_space (filter (fun s => negb (String.eqb s ""))
                    (app (opt_list (option_map (fun c => [c]) (s_fullCommand cfg)))
                         (opt_list (s_args cfg)))) in
      Some (McpStdio (or_str (s_name cfg) id) full)
  | Some "http" => Some (McpHttp (s_url cfg))
  | _ => None
  end.

(** [String.prototype.trim] on the UTF-8 text of a string (the bytes of
    [process.env] values and of command-line arguments).  The characters
    it strips are the ECMAScript WhiteSpace and LineTerminator code
    points: TAB, LF, VT, FF, CR and SPACE (one byte), U+00A0 (two bytes),
    U+1680, U+2000-U+200A, U+2028, U+2029, U+202F, U+205F, U+3000 and
    U+FEFF (three bytes). *)
Definition is_ws (c : ascii) : bool :=
  let n := nat_of_ascii c in
  Nat.eqb n 32 || (Nat.leb 9 n && Nat.leb n 13).

Definition byte_is (c : ascii) (n : nat) : bool := Nat.eqb (nat_of_ascii c) n.

Definition is_ws2 (c1 c2 : ascii) : bool := byte_is c1 194 && byte_is c2 160.

Definition is_ws3 (c1 c2 c3 : ascii) : bool :=
  (byte_is c1 225 && byte_is c2 154 && byte_is c3 128)
  || (byte_is c1 226 && byte_is c2 128
      && ((Nat.leb 128 (nat_of_ascii c3) && Nat.leb (nat_of_ascii c3) 138)
          || byte_is c3 168 || byte_is c3 169 || byte_is c3 175))
  || (byte_is c1 226 && byte_is c2 129 && byte_is c3 159)
  || (byte_is c1 227 && byte_is c2 128 && byte_is c3 128)
  || (byte_is c1 239 && byte_is c2 187 && byte_is c3 191).

(** Strips the leading white space. *)
Fixpoint trim_left (s : string) : string :=
  match s with
  | EmptyString => EmptyString
  | String c1 r1 =>
      if is_ws c1 then trim_left r1 else
      match r1 with
      | EmptyString => s
      | String c2 r2 =>
          if is_ws2 c1 c2 then trim_left r2 else
          match r2 with
          | EmptyString => s
          | String c3 r3 => if is_ws3 c1 c2 c3 then trim_left r3 else s
          end
      end
  end.

(** Strips the leading white space of a byte-reversed string (the
    multi-byte sequences read backwards). *)
Fixpoint trim_left_rev (s : string) : string :=
  match s with
  | EmptyString => EmptyString
  | String c1 r1 =>
      if is_ws c1 then trim_left_rev r1 else
      match r1 with
      | EmptyString => s
      | String c2 r2 =>
          if is_ws2 c2 c1 then trim_left_rev r2 else
          match r2 with
          | EmptyString => s
          | String c3 r3 => if is_ws3 c3 c2 c1 then trim_left_rev r3 else s
          end
      end
  end.

Fixpoint rev_str (s : string) (acc : string) : string :=
  match s with
  | EmptyString => acc
  | String c r => rev_str r (String c acc)
  end.

Definition trim (s : string) : string :=
  rev_str (trim_left_rev (rev_str (trim_left s) EmptyString)) EmptyString.

(* ------------------------------------------------------------------ *)
(** * [ensureOpenAIKey] (core.mjs lines 9-20): [process.env.OPENAI_API_KEY]
    is passed in and returned. *)
Definition ensureOpenAIKey (explicitKey : option string) (env : option string)
  : option string * res string :=
  let env := match explicitKey with
             | Some k => if String.eqb k "" then env else Some k
             | None => env
             end in
  (env, match env with
        | Some k => if String.eqb (trim k) "" then
                      Throw "Missing OpenAI API key. Provide --api-key or set OPENAI_API_KEY."
                    else Ok k
        | None => Throw "Missing OpenAI API key. Provide --api-key or set OPENAI_API_KEY."
        end).

(* ------------------------------------------------------------------ *)
(** * Executors and the flow runner (core.mjs lines 156-281) *)

(** What [run(agent, history)] resolves to. *)
Record RunResult := {
  finalOutput : value;
  rhistory : option (list value) }.

(** What [agents[ref]] hands to [run]: a built agent, an inherited
    [Object.prototype] member, or [undefined]. *)
Inductive handle : Type :=
| HAgent (a : agent)
| HBuiltin (k : string)
| HUndefined.

Definition handle_of (ags : list (string * agent)) (ref : option string) : handle :=
  match dict_get ags (key_of ref) with
  | Own a => HAgent a
  | Inherited k => HBuiltin k
  | Missing => HUndefined
  end.

(** [res.history || history] *)
Definition or_hist (h : option (list value)) (d : list value) : list value :=
  match h with Some l => l | None => d end.

(** A history message [{ role, content }]. *)
Definition message (role content : string) : value :=
  VObj [("role", VStr role); ("content", VStr content)].

(** [{ ...review, turn, maxTurns }] *)
Definition review_ctx (review : value) (turn maxTurns : Z) : list (string * value) :=
  obj_set (obj_set (spread_fields review) "turn" (VNum turn)) "maxTurns" (VNum maxTurns).

(** [finalOutput ?? null] *)
Definition or_null (v : value) : value := if nullish v then VNull else v.

(** [review?.feedback ?? JSON.stringify(review)] for the (truthy) review. *)
Definition feedback_of (json_stringify : value -> string) (review : value) : value :=
  let f := member review "feedback" in
  if nullish f then VStr (json_stringify review) else f.

(** The history after a failed pass check. *)
Definition inject_feedback (feedbackInjection : string) (fb : value)
           (nextHistory : list value) : list value :=
  if String.eqb feedbackInjection "as_system"
  then app nextHistory [message "system" ("Feedback: " ++ to_string fb)]
  else if String.eqb feedbackInjection "as_user"
  then app nextHistory [message "user" ("Feedback: " ++ to_string fb)]
  else nextHistory.

(** The end-of-flow standardization (core.mjs lines 269-280). *)
Definition finishFlow (currentOutput : value) : res value :=
  match currentOutput with
  | VNull => Ok (VObj [("result", VStr "")])
  | VStr _ => Throw ("Output must be an object with a required " ++ quoted "result" ++ " property")
  | _ =>
      r <- get currentOutput "result" ;;
      if negb (truthy r) then Throw ("Output must include " ++ quoted "result")
      else Ok currentOutput
  end.

(** [step?.io?.carryHistory !== false] *)
Definition carry_of (step : StepSpec) : bool :=
  match st_carryHistory step with VBool false => false | _ => true end.

Definition maxTurns_of (step : StepSpec) : Z :=
  match st_maxTurns step with VNum z => z | _ => 8 end.

Definition steps_of (config : Config) : list StepSpec :=
  match flow config with
  | Some fl => opt_list (flow_steps fl)
  | None => []
  end.

Section Engine.

(** The outside world the model backend and the MCP servers live in. *)
Context {W : Type}.

(** [run(agent, history)] of @openai/agents. *)
Variable run : handle -> list value -> W -> res RunResult * W.

(** [srv.connect()] of an [MCPServerStdio]. *)
Variable connect : mcp_handle -> W -> res unit * W.

(** [new Function(...params, body)(...args)] of the JavaScript engine:
    a SyntaxError, a ReferenceError or any exception is a [Throw]. *)
Variable fn_call : list string -> string -> list value -> res value.

(** [JSON.stringify] on an object. *)
Variable json_stringify : value -> string.

Definition M (A : Type) : Type := W -> res A * W.

Definition mret {A} (a : A) : M A := fun w => (Ok a, w).

Definition mbind {A B} (m : M A) (f : A -> M B) : M B :=
  fun w => match m w with
           | (Ok a, w') => f a w'
           | (Throw e, w') => (Throw e, w')
           end.

Definition lift {A} (r : res A) : M A := fun w => (r, w).

Local Notation "'let*' x ':=' m 'in' k" := (mbind m (fun x => k))
  (at level 200, x name, m at level 100, k at level 200).

Definition execSingleAgent (ag : handle) (history : list value) (carryHistory : bool)
  : M (value * list value) :=
  let* res := run ag history in
  mret (finalOutput res, if carryHistory then or_hist (rhistory res) history else history).

Definition evalExpr (expr : string) (ctx : list (string * value)) : value :=
  match fn_call (map fst ctx) ("return (" ++ expr ++ ");") (map snd ctx) with
  | Ok v => v
  | Throw _ => VBool false
  end.

(** The [while (turn < maxTurns)] loop; [fuel] only bounds the recursion
    (it is [maxTurns - turn] turns when started from [execAgentReviewer]). *)
Fixpoint review_loop (fuel : nat) (proposalAgent reviewerAgent : handle)
         (passCondition : string) (maxTurns : Z) (feedbackInjection : string)
         (carryHistory : bool) (turn : Z) (lastProposal : value)
         (nextHistory : list value) : M (value * list value * bool) :=
  if Z.ltb turn maxTurns then
    match fuel with
    | O => mret (lastProposal, nextHistory, false)
    | S f =>
      let turn := Z.add turn 1 in
      let* prop := run proposalAgent nextHistory in
      let lastProposal := or_null (finalOutput prop) in
      let nextHistory := if carryHistory then or_hist (rhistory prop) nextHistory
                         else nextHistory in
      let* rev := run reviewerAgent nextHistory in
      let review := or_else (finalOutput rev) (VObj []) in
      let nextHistory := if carryHistory then or_hist (rhistory rev) nextHistory
                         else nextHistory in
      let pass := evalExpr passCondition (review_ctx review turn maxTurns) in
      if truthy pass then mret (lastProposal, nextHistory, true)
      else
        let fb := feedback_of json_stringify review in
        review_loop f proposalAgent reviewerAgent passCondition maxTurns
          feedbackInjection carryHistory turn lastProposal
          (inject_feedback feedbackInjection fb nextHistory)
    end
  else mret (lastProposal, nextHistory, false).

Definition execAgentReviewer (proposalAgent reviewerAgent : handle)
           (history : list value) (passCondition : string) (maxTurns : Z)
           (feedbackInjection : string) (carryHistory : bool)
  : M (value * list value * bool) :=
  review_loop (Z.to_nat maxTurns) proposalAgent reviewerAgent passCondition
    maxTurns feedbackInjection carryHistory 0 VNull history.

(** [buildMcpServers]: every stdio [connect()] is started, then
    [Promise.all] rejects with one of the failures, the one that settles
    first in time.  Timing is not modelled: the failure reported here is
    the first in configuration order (the two agree when the connections
    settle in order); the properties below only use that the error is the
    error of some failed connection. *)
Fixpoint connect_all (hs : list mcp_handle) (err : option string) : M unit :=
  match hs with
  | [] => fun w => match err with Some e => (Throw e, w) | None => (Ok tt, w) end
  | h :: r => fun w =>
      let '(c, w') := connect h w in
      let err := match err, c with
                 | None, Throw e => Some e
                 | _, _ => err
                 end in
      connect_all r err w'
  end.

Definition buildMcpServers (mcpConfig : list (string * ServerSpec))
  : M (list (string * mcp_handle)) :=
  let mcp := fold_left (fun d '(id, cfg) =>
               match server_entry id cfg with
               | Some h => dict_set d id h
               | None => d
               end) mcpConfig [] in
  let connects := flat_map (fun '(id, cfg) =>
               match server_entry id cfg with
               | Some (McpStdio n c) => [McpStdio n c]
               | _ => []
               end) mcpConfig in
  let* _ := connect_all connects None in
  mret mcp.

Fixpoint run_steps (ags : list (string * agent)) (steps : list StepSpec)
         (history : list value) (currentOutput : value) : M value :=
  match steps with
  | [] => mret currentOutput
  | step :: r =>
    if opt_is (st_type step) "single_agent" then
      let* oh := execSingleAgent (handle_of ags (st_agentRef step)) history
                   (carry_of step) in
      run_steps ags r (snd oh) (fst oh)
    else if opt_is (st_type step) "agent_reviewer" then
      let* o := execAgentReviewer (handle_of ags (st_proposalAgentRef step))
                  (handle_of ags (st_reviewerAgentRef step)) history
                  (or_str (st_passCondition step) "score == 'pass'")
                  (maxTurns_of step)
                  (or_str (st_feedbackInjection step) "as_user")
                  (carry_of step) in
      let '(fo, h, _) := o in
      run_steps ags r h fo
    else lift (Throw ("Unknown step type: " ++ key_of (st_type step)))
  end.

(** [runFlow(config, userPrompt, { apiKey })] with the environment's
    [OPENAI_API_KEY] threaded in and out. *)
Definition runFlow (config : Config) (userPrompt : string) (apiKey : option string)
           (env : option string) (w : W) : res value * (option string * W) :=
  let '(env, key) := ensureOpenAIKey apiKey env in
  match key with
  | Throw e => (Throw e, (env, w))
  | Ok _ =>
    match validateConfig config with
    | Throw e => (Throw e, (env, w))
    | Ok _ =>
      let body : M value :=
        let* mcpRegistry := buildMcpServers (opt_list (mcpServers config)) in
        let* ags := lift (fst (buildAgents (Some (opt_list (agents config)))
                                 mcpRegistry (opt_list (outputSchemas config)))) in
        let* out := run_steps ags (steps_of config) [message "user" userPrompt] VNull in
        lift (finishFlow out) in
      let '(r, w') := body w in (r, (env, w'))
    end
  end.

End Engine.

(* ------------------------------------------------------------------ *)
(** * Concrete configurations and collaborators *)

Module Fixtures.

Definition basic_schema : value :=
  VObj [("type", VStr "object"); ("required", VArr [VStr "result"]);
        ("properties", VObj [("result", VObj [("type", VStr "string")])])].

Definition agent_spec (schemaRef : string) (tools : option (list ToolSpec)) : AgentSpec :=
  {| a_name := None; a_instructions := None; a_outputSchemaRef := Some schemaRef;
     a_modelSettings := VObj []; a_mcpServerRefs := None; a_tools := tools |}.

Definition agent_tool (ref : string) : ToolSpec :=
  {| t_kind := Some "agent"; t_ref := Some ref; t_id := None; t_description := None |}.

Definition single_step (ref : string) : StepSpec :=
  {| st_type := Some "single_agent"; st_agentRef := Some ref;
     st_proposalAgentRef := None; st_reviewerAgentRef := None;
     st_passCondition := None; st_maxTurns := VUndef;
     st_feedbackInjection := None; st_carryHistory := VUndef |}.

(** One [single_agent] step on agent [A]. *)
Definition single_agent_config : Config :=
  {| outputSchemas := Some [("basic", basic_schema)];
     agents := Some [("A", agent_spec "basic" None)];
     mcpServers := None;
     flow := Some {| flow_steps := Some [single_step "A"] |} |}.

(** [flow: { steps: [] }]. *)
Definition empty_flow_config : Config :=
  {| outputSchemas := Some [("basic", basic_schema)];
     agents := Some [("A", agent_spec "basic" None)];
     mcpServers := None;
     flow := Some {| flow_steps := Some [] |} |}.

(** An agent whose [outputSchemaRef] is ["toString"], absent from
    [outputSchemas]. *)
Definition inherited_ref_config : Config :=
  {| outputSchemas := Some [("basic", basic_schema)];
     agents := Some [("A", agent_spec "toString" None)];
     mcpServers := None;
     flow := Some {| flow_steps := Some [single_step "A"] |} |}.

(** A draft-3 style nested object schema: [required: true]. *)
Definition draft3_result_schema : value :=
  VObj [("type", VStr "object"); ("required", VBool true);
        ("properties", VObj [("text", VObj [("type", VStr "string")])])].

Definition nested_schema : value :=
  VObj [("type", VStr "object"); ("required", VArr [VStr "result"]);
        ("properties", VObj [("result", draft3_result_schema)])].

Definition nested_schema_config : Config :=
  {| outputSchemas := Some [("nested", nested_schema)];
     agents := Some [("A", agent_spec "nested" None)];
     mcpServers := None;
     flow := Some {| flow_steps := Some [single_step "A"] |} |}.

(** A model backend answering [out] and echoing the history. *)
Definition echo_run (out : value) (a : handle) (h : list value) (w : unit)
  : res RunResult * unit :=
  (Ok {| finalOutput := out; rhistory := Some h |}, w).

Definition no_connect (h : mcp_handle) (w : unit) : res unit * unit := (Ok tt, w).

Definition json_stub (v : value) : string := "{}".

(** A JavaScript engine for the bodies [return (x);] and
    [return (x == 'pass');] over the parameters; anything else is a
    SyntaxError. *)
Definition mini_eval (ps : list string) (body : string) (args : list value) : res value :=
  let env := combine ps args in
  match find (fun pa => String.eqb body ("return (" ++ fst pa ++ ");")) env with
  | Some (_, v) => Ok v
  | None =>
      match find (fun pa => String.eqb body ("return (" ++ fst pa ++ " == 'pass');")) env with
      | Some (_, v) => Ok (VBool (is_str v "pass"))
      | None => Throw "SyntaxError: Unexpected token"
      end
  end.

(** [mini_eval], except that a body starting with a binary operator is
    a SyntaxError whatever the parameters are. *)
Definition strict_eval (ps : list string) (body : string) (args : list value) : res value :=
  if String.prefix "return (==" body
  then Throw "SyntaxError: Unexpected token '=='"
  else mini_eval ps body args.

Definition proposer : handle := HAgent (Agent "Proposer" "Propose" ZAny (VObj []) [] []).
Definition reviewer : handle := HAgent (Agent "Reviewer" "Review" ZAny (VObj []) [] []).

(** A backend where the agent named [Reviewer] answers [rev_out], any
    other agent answers [prop_out], and the history is echoed back. *)
Definition pr_run (prop_out rev_out : value) (a : handle) (h : list value) (w : unit)
  : res RunResult * unit :=
  match a with
  | HAgent (Agent "Reviewer" _ _ _ _ _) => (Ok {| finalOutput := rev_out; rhistory := Some h |}, w)
  | _ => (Ok {| finalOutput := prop_out; rhistory := Some h |}, w)
  end.

Definition draft : value := VObj [("result", VStr "draft")].
Definition review_pass : value := VObj [("score", VStr "pass")].
Definition review_fail : value :=
  VObj [("score", VStr "fail"); ("feedback", VStr "needs work")].

End Fixtures.

(** Every model call, recorded newest first. *)
Definition traced {W} (run : handle -> list value -> W -> res RunResult * W)
  (a : handle) (h : list value) (s : list (handle * RunResult) * W)
  : res RunResult * (list (handle * RunResult) * W) :=
  let '(tr, w) := s in
  match run a h w with
  | (Ok r, w') => (Ok r, ((a, r) :: tr, w'))
  | (Throw e, w') => (Throw e, (tr, w'))
  end.

(** The tool list of a built agent. *)
Definition agent_tools (a : agent) : list tool :=
  match a with Agent _ _ _ _ _ ts => ts end.

(** An agent spec with its [tools] array replaced. *)
Definition with_tools (a : AgentSpec) (ts : option (list ToolSpec)) : AgentSpec :=
  {| a_name := a_name a; a_instructions := a_instructions a;
     a_outputSchemaRef := a_outputSchemaRef a; a_modelSettings := a_modelSettings a;
     a_mcpServerRefs := a_mcpServerRefs a; a_tools := ts |}.

(** The invariant of pass 1: every base entry is keyed by a configured id
    and carries no tools. *)
Definition base_inv (ids : list string) (base : list (string * agent)) : Prop :=
  forall k b, In (k, b) base -> In k ids /\ agent_tools b = [].

(* ------------------------------------------------------------------ *)
(** * [guessMimeType] (utils/mime.mjs) *)

(** [s.endsWith(suf)]: [suf] reversed is a prefix of [s] reversed. *)
Definition ends_with (s suf : string) : bool :=
  String.prefix (rev_str suf EmptyString) (rev_str s EmptyString).

(** [String(fileName || '').toLowerCase()] and the extension table read
    top to bottom. *)
Definition guessMimeType (fileName : value) : string :=
  let lower := lower_ascii (to_string (or_else fileName (VStr ""))) in
  if ends_with lower ".txt" then "text/plain"
  else if ends_with lower ".md" then "text/markdown"
  else if ends_with lower ".json" then "application/json"
  else if ends_with lower ".pdf" then "application/pdf"
  else if ends_with lower ".png" then "image/png"
  else if ends_with lower ".jpg" || ends_with lower ".jpeg" then "image/jpeg"
  else if ends_with lower ".gif" then "image/gif"
  else if ends_with lower ".csv" then "text/csv"
  else if ends_with lower ".html" || ends_with lower ".htm" then "text/html"
  else "application/octet-stream".

(** The extensions [guessMimeType] recognizes, with their MIME types. *)
Definition mime_table : list (string * string) :=
  [(".txt", "text/plain"); (".md", "text/markdown"); (".json", "application/json");
   (".pdf", "application/pdf"); (".png", "image/png"); (".jpg", "image/jpeg");
   (".jpeg", "image/jpeg"); (".gif", "image/gif"); (".csv", "text/csv");
   (".html", "text/html"); (".htm", "text/html")].

(* ------------------------------------------------------------------ *)
(** * File-upload runners ([runFlowWithFile], [runFlowWithFileBuffer],
    core.mjs lines 284-510) *)

(** What is handed to [client.files.create]: a read stream on a path, or
    a [File] built from a buffer, a name and a MIME type. *)
Inductive upload_src (Buf : Type) : Type :=
| FromPath (filePath : string)
| FromBuffer (fileBuffer : Buf) (fileName : value) (mimeType : value).
Arguments FromPath {Buf} filePath.
Arguments FromBuffer {Buf} fileBuffer fileName mimeType.

(** The first message: the uploaded file and the prompt. *)
Definition file_prompt (fileId userPrompt : string) : value :=
  VObj [("role", VStr "user");
        ("content", VArr [VObj [("type", VStr "input_file");
                                ("file", VObj [("id", VStr fileId)])];
                          VObj [("type", VStr "input_text");
                                ("text", VStr userPrompt)]])].

(** [opts.deleteFileAfter !== false] *)
Definition delete_after (deleteFileAfter : value) : bool :=
  match deleteFileAfter with VBool false => false | _ => true end.

(** The return of the file runners: [{ result: '' }] for a [null] output,
    otherwise the standardized output spread together with [fileId]. *)
Definition finishWithFile (fileId : string) (currentOutput : value) : res value :=
  match currentOutput with
  | VNull => Ok (VObj [("result", VStr "")])
  | _ =>
      out <- finishFlow currentOutput ;;
      Ok (VObj (obj_set (spread_fields out) "fileId" (VStr fileId)))
  end.

Section FileRunner.

Context {W Buf : Type}.
Variable run : handle -> list value -> W -> res RunResult * W.
Variable connect : mcp_handle -> W -> res unit * W.
Variable fn_call : list string -> string -> list value -> res value.
Variable json_stringify : value -> string.

(** [await getOpenAI()] followed by [new OpenAI({ apiKey })]. *)
Variable make_client : string -> W -> res unit * W.

(** [client.files.create({ file, purpose: 'user_data' })]: the id of the
    uploaded file, or the message of the error it rejects with. *)
Variable upload : upload_src Buf -> W -> res string * W.

(** [client.files.del(file.id)]. *)
Variable delete_file : string -> W -> res unit * W.

Local Notation "'let*' x ':=' m 'in' k" := (mbind m (fun x => k))
  (at level 200, x name, m at level 100, k at level 200).

(** The step loop of the file runners (core.mjs lines 331-363 and
    450-482); it differs from [run_steps] only in its default pass
    condition [score == "pass"]. *)
Fixpoint run_file_steps (ags : list (string * agent)) (steps : list StepSpec)
         (history : list value) (currentOutput : value) : M value :=
  match steps with
  | [] => mret currentOutput
  | step :: r =>
    if opt_is (st_type step) "single_agent" then
      let* oh := execSingleAgent run (handle_of ags (st_agentRef step)) history
                   (carry_of step) in
      run_file_steps ags r (snd oh) (fst oh)
    else if opt_is (st_type step) "agent_reviewer" then
      let* o := execAgentReviewer run fn_call json_stringify
                  (handle_of ags (st_proposalAgentRef step))
                  (handle_of ags (st_reviewerAgentRef step)) history
                  (or_str (st_passCondition step) ("score == " ++ dq ++ "pass" ++ dq))
                  (maxTurns_of step)
                  (or_str (st_feedbackInjection step) "as_user")
                  (carry_of step) in
      let '(fo, h, _) := o in
      run_file_steps ags r h fo
    else lift (Throw ("Unknown step type: " ++ key_of (st_type step)))
  end.

(** From [buildMcpServers] to the last step, once the file is uploaded. *)
Definition file_flow_body (config : Config) (fileId userPrompt : string) : M value :=
  let* mcpRegistry := buildMcpServers connect (opt_list (mcpServers config)) in
  let* ags := lift (fst (buildAgents (Some (opt_list (agents config)))
                           mcpRegistry (opt_list (outputSchemas config)))) in
  run_file_steps ags (steps_of config) [file_prompt fileId userPrompt] VNull.

(** The body shared by both runners; it returns the result, the lines
    written by [console.warn], and [process.env.OPENAI_API_KEY] with the
    world. *)
Definition flowWithFile (src : upload_src Buf) (config : Config) (userPrompt : string)
           (apiKey : option string) (deleteFileAfter : value)
           (env : option string) (w : W)
  : (res value * list string) * (option string * W) :=
  let '(env, key) := ensureOpenAIKey apiKey env in
  match key with
  | Throw e => ((Throw e, []), (env, w))
  | Ok k =>
    match validateConfig config with
    | Throw e => ((Throw e, []), (env, w))
    | Ok _ =>
      match make_client k w with
      | (Throw e, w1) => ((Throw e, []), (env, w1))
      | (Ok _, w1) =>
        match upload src w1 with
        | (Throw m, w2) => ((Throw ("Failed to upload file: " ++ m), []), (env, w2))
        | (Ok fileId, w2) =>
          match file_flow_body config fileId userPrompt w2 with
          | (Throw e, w3) => ((Throw e, []), (env, w3))
          | (Ok out, w3) =>
            let '(warns, w4) :=
              if delete_after deleteFileAfter then
                match delete_file fileId w3 with
                | (Ok _, w4) => ([], w4)
                | (Throw m, w4) =>
                    (["Warning: Failed to delete uploaded file " ++ fileId ++ ": " ++ m], w4)
                end
              else ([], w3) in
            ((finishWithFile fileId out, warns), (env, w4))
          end
        end
      end
    end
  end.

(** [runFlowWithFile(config, filePath, userPrompt, opts)] *)
Definition runFlowWithFile (config : Config) (filePath : string) (userPrompt : string)
           (apiKey : option string) (deleteFileAfter : value)
           (env : option string) (w : W) :=
  flowWithFile (FromPath filePath) config userPrompt apiKey deleteFileAfter env w.

(** [runFlowWithFileBuffer(config, fileBuffer, fileName, userPrompt, opts)]:
    the MIME type is [opts.mimeType ?? guessMimeType(fileName)]. *)
Definition runFlowWithFileBuffer (config : Config) (fileBuffer : Buf) (fileName : value)
           (userPrompt : string) (apiKey : option string) (mimeType : value)
           (deleteFileAfter : value) (env : option string) (w : W) :=
  let mime := if nullish mimeType then VStr (guessMimeType fileName) else mimeType in
  flowWithFile (FromBuffer fileBuffer fileName mime) config userPrompt apiKey
    deleteFileAfter env w.

End FileRunner.

(* ------------------------------------------------------------------ *)
(** * Auxiliary notions for the properties below *)

(** One unfolding of [toZod]: its body with the recursive call [rec]. *)
Definition shape_of (rec : value -> res zod) (req : list value)
  : list (string * value) -> res (list (string * zod)) :=
  fix go (es : list (string * value)) : res (list (string * zod)) :=
    match es with
    | [] => Ok []
    | (k, v) :: r =>
        zf <- rec v ;;
        let zf := if set_has req k then zf else ZOptional zf in
        rest <- go r ;;
        Ok ((k, zf) :: rest)
    end.

Definition toZod_body (rec : value -> res zod) (schema : value) : res zod :=
  if negb (truthy schema) then Ok ZAny else
  let ty := member schema "type" in
  if is_str ty "string" then
    Ok (if truthy (member schema "enum") then ZEnum (member schema "enum") else ZString)
  else if is_str ty "number" || is_str ty "integer" then Ok ZNumber
  else if is_str ty "boolean" then Ok ZBoolean
  else if is_str ty "array" then
    it <- rec (or_else (member schema "items") (VObj [])) ;;
    Ok (ZArray it)
  else if is_str ty "object" || truthy (member schema "properties") then
    req <- new_set (or_else (member schema "required") (VArr [])) ;;
    shape <- shape_of rec req (object_entries (or_else (member schema "properties") (VObj []))) ;;
    Ok (ZObject shape (match member schema "additionalProperties" with
                       | VBool false => true | _ => false end))
  else Ok ZAny.

(** Every object node of a value has a [required] member that [new Set]
    accepts (absent, falsy, an array or a string). *)
Fixpoint required_ok (v : value) : bool :=
  match v with
  | VObj fs =>
      negb (is_throw (new_set (or_else (obj_get fs "required") (VArr []))))
      && (fix all (fs : list (string * value)) : bool :=
            match fs with
            | [] => true
            | (_, x) :: r => required_ok x && all r
            end) fs
  | VArr l =>
      (fix all (l : list value) : bool :=
         match l with
         | [] => true
         | x :: r => required_ok x && all r
         end) l
  | _ => true
  end.

(** The stdio servers of an MCP configuration, in order: the ones
    [buildMcpServers] connects. *)
Definition stdio_handles (mcpConfig : list (string * ServerSpec)) : list mcp_handle :=
  flat_map (fun '(id, cfg) =>
              match server_entry id cfg with
              | Some (McpStdio n c) => [McpStdio n c]
              | _ => []
              end) mcpConfig.

(** Every [connect] call, recorded newest first with its outcome. *)
Definition traced_connect {W} (connect : mcp_handle -> W -> res unit * W)
  (h : mcp_handle) (s : list (mcp_handle * res unit) * W)
  : res unit * (list (mcp_handle * res unit) * W) :=
  let '(tr, w) := s in
  let '(r, w') := connect h w in (r, ((h, r) :: tr, w')).

(** The first failure among recorded [connect] outcomes (oldest first). *)
Fixpoint first_error (l : list (mcp_handle * res unit)) : option string :=
  match l with
  | [] => None
  | (_, Throw e) :: _ => Some e
  | _ :: r => first_error r
  end.

(** One step of the registry loop of [buildMcpServers]. *)
Definition mcp_step (d : list (string * mcp_handle)) (e : string * ServerSpec) :=
  let '(id, cfg) := e in
  match server_entry id cfg with Some h => dict_set d id h | None => d end.

(* ================================================================== *)
(** * Theorems *)

(** C4 (refuted): a config with [flow: { steps: [] }] does not yield
    [{result: ""}]: [runFlow] fails in [validateConfig]. *)
Lemma runFlow_empty_steps_cex :
  fst (runFlow (Fixtures.echo_run VNull) Fixtures.no_connect Fixtures.mini_eval
         Fixtures.json_stub Fixtures.empty_flow_config "p" None (Some "sk-test") tt)
  = Throw "Flow must contain at least one step".
Proof. reflexivity. Qed.

Lemma ensureOpenAIKey_throw_message :
  forall apiKey env env' e,
    ensureOpenAIKey apiKey env = (env', Throw e) ->
    e = "Missing OpenAI API key. Provide --api-key or set OPENAI_API_KEY.".
Proof.
  intros apiKey env env' e H. unfold ensureOpenAIKey in H.
  destruct (match apiKey with Some k => _ | None => env end) as [k|];
    [destruct (String.eqb (trim k) "")|]; inversion H; reflexivity.
Qed.

(** C4 (amended): running a flow whose step list is empty or absent
    always fails before any server is connected or any model is called
    (the world is returned untouched): the API-key check throws first
    when no usable key is set; otherwise [validateConfig] throws
    ["Flow must contain at least one step"], or the missing-[flow] error
    when [flow] itself is absent.  The output [{result: ""}] is produced by
    the end-of-flow standardization exactly when the last step's output is
    [null]. *)
Theorem runFlow_empty_steps_rejected :
  (forall (W : Type) run connect fn_call json_stringify config prompt apiKey env (w : W),
     steps_of config = [] ->
     runFlow run connect fn_call json_stringify config prompt apiKey env w
     = (Throw (if is_throw (snd (ensureOpenAIKey apiKey env))
               then "Missing OpenAI API key. Provide --api-key or set OPENAI_API_KEY."
               else match flow config with
                    | None => "Configuration must contain a " ++ quoted "flow" ++ " property"
                    | Some _ => "Flow must contain at least one step"
                    end),
        (fst (ensureOpenAIKey apiKey env), w))) /\
  (forall v, finishFlow v = Ok (VObj [("result", VStr "")]) <-> v = VNull).
Proof.
  split.
  - intros W run connect fn_call js config prompt apiKey env w H.
    unfold runFlow.
    destruct (ensureOpenAIKey apiKey env) as [env' [k|e]] eqn:Ek; simpl.
    + unfold steps_of, validateConfig in *.
      destruct (flow config) as [[[st|]]|]; simpl in *; try reflexivity.
      subst st. reflexivity.
    + rewrite (ensureOpenAIKey_throw_message _ _ _ _ Ek). reflexivity.
  - intros v; split.
    + destruct v; simpl; try discriminate; auto.
      destruct (truthy (obj_get fields "result")) eqn:E; simpl; intro Hv;
        [injection Hv as ->; simpl in E; discriminate | discriminate].
    + intros ->. reflexivity.
Qed.

Lemma runFlow_empty_steps_rejected_witness :
  steps_of Fixtures.empty_flow_config = [] /\
  runFlow (Fixtures.echo_run VNull) Fixtures.no_connect Fixtures.mini_eval
    Fixtures.json_stub Fixtures.empty_flow_config "p" None (Some "sk-test") tt
  = (Throw "Flow must contain at least one step", (Some "sk-test", tt)).
Proof.
  split; [reflexivity|].
  exact (proj1 runFlow_empty_steps_rejected unit (Fixtures.echo_run VNull) Fixtures.no_connect
           Fixtures.mini_eval Fixtures.json_stub Fixtures.empty_flow_config "p" None
           (Some "sk-test") tt eq_refl).
Defined.

(** C5: the end-of-flow standardization rejects a bare string with an
    error naming the required [result] property, rejects an object whose
    [result] is not truthy, and returns any other object unchanged; a
    flow whose only step returns [{result: "x"}] yields exactly that. *)
Theorem finishFlow_output_shape :
  (forall s, exists m, finishFlow (VStr s) = Throw m /\
                       str_includes m "required" = true /\
                       str_includes m (quoted "result") = true) /\
  (forall fs, truthy (obj_get fs "result") = false ->
              exists m, finishFlow (VObj fs) = Throw m) /\
  (forall fs, truthy (obj_get fs "result") = true ->
              finishFlow (VObj fs) = Ok (VObj fs)) /\
  (forall (W : Type) run connect fn_call json_stringify (w : W),
     (forall a h w0, exists h' w',
        run a h w0 = (Ok {| finalOutput := VObj [("result", VStr "x")];
                            rhistory := h' |}, w')) ->
     fst (runFlow run connect fn_call json_stringify Fixtures.single_agent_config
            "p" None (Some "sk-test") w)
     = Ok (VObj [("result", VStr "x")])).
Proof.
  split; [|split; [|split]].
  - intros s. eexists. split; [reflexivity|]. split; reflexivity.
  - intros fs H. simpl. rewrite H. eexists. reflexivity.
  - intros fs H. simpl. rewrite H. reflexivity.
  - intros W run connect fn_call js w H.
    lazy.
    match goal with
    | |- context [run ?a ?h ?w0] =>
        destruct (H a h w0) as (h' & w' & E); rewrite E
    end.
    reflexivity.
Qed.

Lemma finishFlow_output_shape_witness :
  (forall a h w0, exists h' (w' : unit),
     Fixtures.echo_run (VObj [("result", VStr "x")]) a h w0
     = (Ok {| finalOutput := VObj [("result", VStr "x")]; rhistory := h' |}, w')) /\
  fst (runFlow (Fixtures.echo_run (VObj [("result", VStr "x")])) Fixtures.no_connect
         Fixtures.mini_eval Fixtures.json_stub Fixtures.single_agent_config
         "p" None (Some "sk-test") tt)
  = Ok (VObj [("result", VStr "x")]).
Proof.
  assert (Hr : forall a h w0, exists h' (w' : unit),
     Fixtures.echo_run (VObj [("result", VStr "x")]) a h w0
     = (Ok {| finalOutput := VObj [("result", VStr "x")]; rhistory := h' |}, w')).
  { intros a h w0. exists (Some h), w0. reflexivity. }
  split; [exact Hr|].
  exact (proj2 (proj2 (proj2 finishFlow_output_shape)) unit _ _ _ _ tt Hr).
Defined.

(** C6: a single-agent step with [carryHistory] false returns the input
    history unchanged; only the output comes from the model call. *)
Theorem execSingleAgent_no_carry_keeps_history :
  forall (W : Type) (run : handle -> list value -> W -> res RunResult * W) ag history w,
    execSingleAgent run ag history false w =
    match run ag history w with
    | (Ok r, w') => (Ok (finalOutput r, history), w')
    | (Throw e, w') => (Throw e, w')
    end.
Proof.
  intros. unfold execSingleAgent, mbind, mret.
  destruct (run ag history w) as [[r|e] w']; reflexivity.
Qed.

(** C7 (code defect): [validateConfig] accepts an agent whose
    [outputSchemaRef] is ["toString"], a name absent from [outputSchemas]:
    the lookup [config.outputSchemas?.[ref]] finds the inherited
    [Object.prototype.toString]. *)
Theorem validateConfig_accepts_inherited_schema_name :
  dict_get (opt_list (outputSchemas Fixtures.inherited_ref_config)) "toString"
    = Inherited "toString" /\
  validateConfig Fixtures.inherited_ref_config = Ok tt.
Proof. split; reflexivity. Qed.

(** C9 (code defect): the translator throws on an object schema whose
    [required] is not iterable ([new Set(true)]); such a schema nested
    under [result] passes [validateConfig] and makes [buildAgents] throw. *)
Theorem jsonSchemaToZod_throws_on_boolean_required :
  jsonSchemaToZod Fixtures.draft3_result_schema = Throw "TypeError: true is not iterable" /\
  validateConfig Fixtures.nested_schema_config = Ok tt /\
  fst (buildAgents (agents Fixtures.nested_schema_config) []
         (opt_list (outputSchemas Fixtures.nested_schema_config)))
  = Throw "TypeError: true is not iterable".
Proof. split; [|split]; reflexivity. Qed.

(** ** The propose/review loop *)

Section ReviewLoop.

Context {W : Type}.
Variable run : handle -> list value -> W -> res RunResult * W.
Variable fn_call : list string -> string -> list value -> res value.
Variable json_stringify : value -> string.
Variables (P R : handle) (passCondition : string) (maxTurns : Z)
          (feedbackInjection : string) (carryHistory : bool).

Lemma review_loop_exit :
  forall fuel turn lp hist w,
    Z.ltb turn maxTurns = false ->
    review_loop run fn_call json_stringify fuel P R passCondition maxTurns feedbackInjection carryHistory turn lp hist w
    = (Ok (lp, hist, false), w).
Proof.
  intros fuel turn lp hist w H. destruct fuel; simpl; rewrite H; reflexivity.
Qed.

Lemma review_loop_step :
  forall f turn lp hist w,
    Z.ltb turn maxTurns = true ->
    review_loop run fn_call json_stringify (S f) P R passCondition maxTurns feedbackInjection carryHistory turn lp hist w =
    match run P hist w with
    | (Throw e, w1) => (Throw e, w1)
    | (Ok p, w1) =>
      let h1 := if carryHistory then or_hist (rhistory p) hist else hist in
      match run R h1 w1 with
      | (Throw e, w2) => (Throw e, w2)
      | (Ok r, w2) =>
        let review := or_else (finalOutput r) (VObj []) in
        let h2 := if carryHistory then or_hist (rhistory r) h1 else h1 in
        if truthy (evalExpr fn_call passCondition
                     (review_ctx review (Z.add turn 1) maxTurns))
        then (Ok (or_null (finalOutput p), h2, true), w2)
        else review_loop run fn_call json_stringify f P R passCondition maxTurns feedbackInjection carryHistory
               (Z.add turn 1) (or_null (finalOutput p))
               (inject_feedback feedbackInjection (feedback_of json_stringify review) h2) w2
      end
    end.
Proof.
  intros f turn lp hist w H. simpl. rewrite H. unfold mbind, mret.
  destruct (run P hist w) as [[p|e] w1]; [|reflexivity].
  destruct (run R _ w1) as [[r|e] w2]; [|reflexivity].
  destruct (truthy _); reflexivity.
Qed.

(** A turn whose two model calls succeed and whose pass check holds ends
    the loop with the proposal. *)
Lemma review_loop_pass_now :
  forall f turn lp hist w0 w1 w2 p r,
    Z.ltb turn maxTurns = true ->
    run P hist w0 = (Ok p, w1) ->
    run R (if carryHistory then or_hist (rhistory p) hist else hist) w1 = (Ok r, w2) ->
    truthy (evalExpr fn_call passCondition
              (review_ctx (or_else (finalOutput r) (VObj [])) (Z.add turn 1) maxTurns)) = true ->
    review_loop run fn_call json_stringify (S f) P R passCondition maxTurns feedbackInjection carryHistory turn lp hist w0 =
    (Ok (or_null (finalOutput p),
         (let h1 := if carryHistory then or_hist (rhistory p) hist else hist in
          if carryHistory then or_hist (rhistory r) h1 else h1), true), w2).
Proof.
  intros f turn lp hist w0 w1 w2 p r Hlt Hp Hr Hpass.
  rewrite review_loop_step by exact Hlt. rewrite Hp. cbv zeta. rewrite Hr.
  rewrite Hpass. reflexivity.
Qed.

End ReviewLoop.

(** When the pass check never holds, every turn makes exactly two model
    calls and the loop returns the last proposal with [passed] false. *)
Lemma review_loop_fails_all :
  forall (W : Type) (run : handle -> list value -> W -> res RunResult * W)
         fn_call json_stringify P R passCondition maxTurns feedbackInjection carryHistory,
  (forall ctx, truthy (evalExpr fn_call passCondition ctx) = false) ->
  forall fuel turn lp hist tr w,
  Z.to_nat (maxTurns - turn) = fuel ->
  match review_loop (traced run) fn_call json_stringify fuel P R passCondition maxTurns
          feedbackInjection carryHistory turn lp hist (tr, w) with
  | (Ok (out, _, passed), (tr', _)) =>
      passed = false /\ length tr' = (2 * fuel + length tr)%nat /\
      (fuel = 0%nat -> out = lp /\ tr' = tr) /\
      (fuel <> 0%nat -> exists r, nth_error tr' 1 = Some (P, r) /\
                                  out = or_null (finalOutput r))
  | (Throw _, _) => True
  end.
Proof.
  intros W run fn_call js P R cond maxTurns fi carry Hfail.
  induction fuel as [|f IH]; intros turn lp hist tr w Hf.
  - rewrite review_loop_exit by (apply Z.ltb_ge; lia).
    repeat split; auto. intros C; contradiction C; reflexivity.
  - rewrite review_loop_step by (apply Z.ltb_lt; lia).
    unfold traced at 1.
    destruct (run P hist w) as [[p|e] w1]; [|exact I].
    cbv zeta. unfold traced at 1.
    destruct (run R _ w1) as [[r|e] w2]; [|exact I].
    rewrite Hfail.
    specialize (IH (Z.add turn 1) (or_null (finalOutput p))
                   (inject_feedback fi (feedback_of js (or_else (finalOutput r) (VObj [])))
                      (if carry then or_hist (rhistory r)
                                      (if carry then or_hist (rhistory p) hist else hist)
                       else if carry then or_hist (rhistory p) hist else hist))
                   ((R, r) :: (P, p) :: tr) w2 ltac:(lia)).
    destruct (review_loop _ _ _ f _ _ _ _ _ _ _ _ _ _) as [[[[out h] passed]|e] [tr' w']];
      [|exact I].
    destruct IH as (Hp & Hlen & H0 & H1).
    split; [exact Hp|]. split; [simpl in Hlen; lia|].
    split; [intros C; discriminate C|].
    intros _. destruct (Nat.eq_dec f 0) as [->|Hn].
    + destruct (H0 eq_refl) as [-> ->]. exists p. split; reflexivity.
    + exact (H1 Hn).
Qed.

(** C1: when the first turn's two model calls succeed and the pass
    condition holds on the first review, the loop returns the proposal's
    output (not the review) with [passed] true, after exactly one
    proposal call and one review call. *)
Theorem execAgentReviewer_first_turn_pass :
  forall (W : Type) (run : handle -> list value -> W -> res RunResult * W)
         fn_call json_stringify P R history passCondition maxTurns
         feedbackInjection (carryHistory : bool) (w0 w1 w2 : W) p r,
    (1 <= maxTurns)%Z ->
    run P history w0 = (Ok p, w1) ->
    run R (if carryHistory then or_hist (rhistory p) history else history) w1 = (Ok r, w2) ->
    truthy (evalExpr fn_call passCondition
              (review_ctx (or_else (finalOutput r) (VObj [])) 1 maxTurns)) = true ->
    execAgentReviewer (traced run) fn_call json_stringify P R history passCondition
      maxTurns feedbackInjection carryHistory ([], w0)
    = (Ok (or_null (finalOutput p),
           (let h1 := if carryHistory then or_hist (rhistory p) history else history in
            if carryHistory then or_hist (rhistory r) h1 else h1), true),
       ([(R, r); (P, p)], w2)).
Proof.
  intros W run fn_call js P R history cond maxTurns fi carry w0 w1 w2 p r
         Hm Hp Hr Hpass.
  unfold execAgentReviewer.
  destruct (Z.to_nat maxTurns) as [|f] eqn:Ef; [lia|].
  apply review_loop_pass_now with (w1 := ([(P, p)], w1)).
  - apply Z.ltb_lt. lia.
  - simpl. rewrite Hp. reflexivity.
  - simpl. rewrite Hr. reflexivity.
  - exact Hpass.
Qed.

Lemma execAgentReviewer_first_turn_pass_witness :
  execAgentReviewer (traced (Fixtures.pr_run Fixtures.draft Fixtures.review_pass))
    Fixtures.mini_eval Fixtures.json_stub Fixtures.proposer Fixtures.reviewer
    [message "user" "hi"] "score == 'pass'" 8 "as_user" true ([], tt)
  = (Ok (Fixtures.draft, [message "user" "hi"], true),
     ([(Fixtures.reviewer, {| finalOutput := Fixtures.review_pass;
                              rhistory := Some [message "user" "hi"] |});
       (Fixtures.proposer, {| finalOutput := Fixtures.draft;
                              rhistory := Some [message "user" "hi"] |})], tt)).
Proof.
  apply (execAgentReviewer_first_turn_pass unit
           (Fixtures.pr_run Fixtures.draft Fixtures.review_pass)
           Fixtures.mini_eval Fixtures.json_stub Fixtures.proposer Fixtures.reviewer
           [message "user" "hi"] "score == 'pass'" 8 "as_user" true tt tt tt
           {| finalOutput := Fixtures.draft; rhistory := Some [message "user" "hi"] |}
           {| finalOutput := Fixtures.review_pass; rhistory := Some [message "user" "hi"] |}).
  - lia.
  - reflexivity.
  - reflexivity.
  - reflexivity.
Defined.




Lemma evalExpr_throw :
  forall (fn_call : list string -> string -> list value -> res value) expr ctx,
    is_throw (fn_call (map fst ctx) ("return (" ++ expr ++ ");") (map snd ctx)) = true ->
    evalExpr fn_call expr ctx = VBool false.
Proof.
  intros fn_call expr ctx H. unfold evalExpr.
  destruct (fn_call _ _ _); [discriminate H | reflexivity].
Qed.

(** C3: an evaluation that throws makes the evaluator return [false]; so
    with a pass condition that the engine rejects in every context the
    loop never passes: when it returns, it has made [2 * maxTurns] model
    calls (all [maxTurns] turns) and returns the last proposal with
    [passed] false. *)
Theorem evalExpr_error_false_and_loop_exhausts :
  (forall (fn_call : list string -> string -> list value -> res value) expr ctx,
     is_throw (fn_call (map fst ctx) ("return (" ++ expr ++ ");") (map snd ctx)) = true ->
     evalExpr fn_call expr ctx = VBool false) /\
  (forall (W : Type) (run : handle -> list value -> W -> res RunResult * W)
          fn_call json_stringify P R history passCondition maxTurns
          feedbackInjection (carryHistory : bool) (w : W),
     (forall ps args, is_throw (fn_call ps ("return (" ++ passCondition ++ ");") args) = true) ->
     match execAgentReviewer (traced run) fn_call json_stringify P R history passCondition
             maxTurns feedbackInjection carryHistory ([], w) with
     | (Ok (out, _, passed), (tr, _)) =>
         passed = false /\ length tr = (2 * Z.to_nat maxTurns)%nat /\
         ((0 < maxTurns)%Z -> exists r, nth_error tr 1 = Some (P, r) /\
                                        out = or_null (finalOutput r))
     | (Throw _, _) => True
     end).
Proof.
  split; [exact evalExpr_throw|].
  intros W run fn_call js P R history cond maxTurns fi carry w Hbad.
  assert (Hfail : forall ctx, truthy (evalExpr fn_call cond ctx) = false).
  { intros ctx. rewrite evalExpr_throw by apply Hbad. reflexivity. }
  pose proof (review_loop_fails_all W run fn_call js P R cond maxTurns fi carry Hfail
                (Z.to_nat maxTurns) 0 VNull history [] w
                ltac:(rewrite Z.sub_0_r; reflexivity)) as L.
  unfold execAgentReviewer.
  destruct (review_loop _ _ _ _ _ _ _ _ _ _ _ _ _ _) as [[[[out h] passed]|e] [tr w']];
    [|exact I].
  destruct L as (Hp & Hlen & _ & H1).
  split; [exact Hp|]. split; [simpl in Hlen; lia|].
  intros Hpos. apply H1. lia.
Qed.

Lemma evalExpr_error_false_and_loop_exhausts_witness :
  match execAgentReviewer (traced (Fixtures.pr_run Fixtures.draft Fixtures.review_pass))
          Fixtures.strict_eval Fixtures.json_stub Fixtures.proposer Fixtures.reviewer
          [message "user" "hi"] "== 'pass'" 3 "as_user" true ([], tt) with
  | (Ok (out, _, passed), (tr, _)) =>
      passed = false /\ length tr = (2 * Z.to_nat 3)%nat /\
      ((0 < 3)%Z -> exists r, nth_error tr 1 = Some (Fixtures.proposer, r) /\
                              out = or_null (finalOutput r))
  | (Throw _, _) => True
  end.
Proof.
  apply (proj2 evalExpr_error_false_and_loop_exhausts unit
           (Fixtures.pr_run Fixtures.draft Fixtures.review_pass)
           Fixtures.strict_eval Fixtures.json_stub Fixtures.proposer Fixtures.reviewer
           [message "user" "hi"] "== 'pass'" 3%Z "as_user" true tt).
  intros ps args. reflexivity.
Defined.

(** C10: the evaluator returns the expression's value as it is, and any
    truthy value (a nonzero number, a non-empty string, [true], an object,
    an array, a function) makes the pass check succeed: on the first
    review the executor returns the proposal with [passed] true, and on
    any later turn the loop returns that turn's proposal with [passed]
    true. *)
Theorem evalExpr_raw_truthy_passes :
  (forall (fn_call : list string -> string -> list value -> res value) expr ctx v,
     fn_call (map fst ctx) ("return (" ++ expr ++ ");") (map snd ctx) = Ok v ->
     evalExpr fn_call expr ctx = v) /\
  (forall (W : Type) (run : handle -> list value -> W -> res RunResult * W)
          fn_call json_stringify P R history passCondition maxTurns
          feedbackInjection (carryHistory : bool) (w0 w1 w2 : W) p r v,
     (1 <= maxTurns)%Z ->
     run P history w0 = (Ok p, w1) ->
     run R (if carryHistory then or_hist (rhistory p) history else history) w1 = (Ok r, w2) ->
     fn_call (map fst (review_ctx (or_else (finalOutput r) (VObj [])) 1 maxTurns))
       ("return (" ++ passCondition ++ ");")
       (map snd (review_ctx (or_else (finalOutput r) (VObj [])) 1 maxTurns)) = Ok v ->
     truthy v = true ->
     exists h, fst (execAgentReviewer (traced run) fn_call json_stringify P R history
                      passCondition maxTurns feedbackInjection carryHistory ([], w0))
               = Ok (or_null (finalOutput p), h, true)) /\
  (forall (W : Type) (run : handle -> list value -> W -> res RunResult * W)
          fn_call json_stringify P R passCondition maxTurns feedbackInjection
          (carryHistory : bool) fuel turn lastProposal hist (w0 w1 w2 : W) p r v,
     (turn < maxTurns)%Z ->
     run P hist w0 = (Ok p, w1) ->
     run R (if carryHistory then or_hist (rhistory p) hist else hist) w1 = (Ok r, w2) ->
     fn_call (map fst (review_ctx (or_else (finalOutput r) (VObj [])) (turn + 1) maxTurns))
       ("return (" ++ passCondition ++ ");")
       (map snd (review_ctx (or_else (finalOutput r) (VObj [])) (turn + 1) maxTurns)) = Ok v ->
     truthy v = true ->
     review_loop run fn_call json_stringify (S fuel) P R passCondition maxTurns
       feedbackInjection carryHistory turn lastProposal hist w0 =
     (Ok (or_null (finalOutput p),
          (let h1 := if carryHistory then or_hist (rhistory p) hist else hist in
           if carryHistory then or_hist (rhistory r) h1 else h1), true), w2)).
Proof.
  assert (Hraw : forall (fn_call : list string -> string -> list value -> res value) expr ctx v,
     fn_call (map fst ctx) ("return (" ++ expr ++ ");") (map snd ctx) = Ok v ->
     evalExpr fn_call expr ctx = v).
  { intros fn_call expr ctx v H. unfold evalExpr. rewrite H. reflexivity. }
  split; [exact Hraw|]. split.
  - intros W run fn_call js P R history cond maxTurns fi carry w0 w1 w2 p r v
           Hm Hp Hr Hv Htruthy.
    assert (Hpass : truthy (evalExpr fn_call cond
              (review_ctx (or_else (finalOutput r) (VObj [])) 1 maxTurns)) = true).
    { rewrite (Hraw _ _ _ v Hv). exact Htruthy. }
    unfold execAgentReviewer.
    destruct (Z.to_nat maxTurns) as [|f] eqn:Ef; [lia|].
    eexists.
    rewrite (review_loop_pass_now (traced run) fn_call js P R cond maxTurns fi carry f 0
               VNull history ([], w0) ([(P, p)], w1) ([(R, r); (P, p)], w2) p r).
    + reflexivity.
    + apply Z.ltb_lt. lia.
    + simpl. rewrite Hp. reflexivity.
    + simpl. rewrite Hr. reflexivity.
    + exact Hpass.
  - intros W run fn_call js P R cond maxTurns fi carry f turn lp hist w0 w1 w2 p r v
           Hlt Hp Hr Hv Htruthy.
    apply (review_loop_pass_now run fn_call js P R cond maxTurns fi carry f turn lp hist
             w0 w1 w2 p r).
    + apply Z.ltb_lt. exact Hlt.
    + exact Hp.
    + exact Hr.
    + rewrite (Hraw _ _ _ v Hv). exact Htruthy.
Qed.

Lemma evalExpr_raw_truthy_passes_witness :
  exists h, fst (execAgentReviewer (traced (Fixtures.pr_run Fixtures.draft Fixtures.review_fail))
                   Fixtures.mini_eval Fixtures.json_stub Fixtures.proposer Fixtures.reviewer
                   [message "user" "hi"] "turn" 8 "as_user" true ([], tt))
            = Ok (Fixtures.draft, h, true).
Proof.
  apply (proj1 (proj2 evalExpr_raw_truthy_passes) unit
           (Fixtures.pr_run Fixtures.draft Fixtures.review_fail)
           Fixtures.mini_eval Fixtures.json_stub Fixtures.proposer Fixtures.reviewer
           [message "user" "hi"] "turn" 8%Z "as_user" true tt tt tt
           {| finalOutput := Fixtures.draft; rhistory := Some [message "user" "hi"] |}
           {| finalOutput := Fixtures.review_fail; rhistory := Some [message "user" "hi"] |}
           (VNum 1)).
  - lia.
  - reflexivity.
  - reflexivity.
  - reflexivity.
  - reflexivity.
Defined.

(** ** The agent registry *)

Lemma make_agent_ignores_tools_field :
  forall reg schemas id a ts tools,
    make_agent reg schemas id (with_tools a ts) tools = make_agent reg schemas id a tools.
Proof. intros reg schemas id [] ts tools. reflexivity. Qed.

Lemma make_agent_tools :
  forall reg schemas id a tools b,
    make_agent reg schemas id a tools = Ok b -> agent_tools b = tools.
Proof.
  intros reg schemas id a tools b H. unfold make_agent in H.
  destruct (jsonSchemaToZod _); simpl in H; inversion H; reflexivity.
Qed.

Lemma build_tools_skip_missing :
  forall base t post pre,
    dict_get base (key_of (t_ref t)) = Missing ->
    build_tools base (pre ++ t :: post) = build_tools base (pre ++ post).
Proof.
  intros base t post pre Hm. induction pre as [|x pre IH]; simpl.
  - rewrite Hm. simpl. rewrite andb_false_r. reflexivity.
  - destruct (opt_is (t_kind x) "agent" && slot_truthy (dict_get base (key_of (t_ref x))));
      [|exact IH].
    destruct (dict_get base (key_of (t_ref x))); try reflexivity.
    rewrite IH. reflexivity.
Qed.

Lemma dict_set_in :
  forall {A} (d : list (string * A)) k a k' a',
    In (k', a') (dict_set d k a) -> (k' = k /\ a' = a) \/ In (k', a') d.
Proof.
  intros A d k a k' a'. induction d as [|[k0 a0] d IH]; simpl.
  - intros [H|[]]. inversion H. left. auto.
  - destruct (String.eqb_spec k k0) as [->|_]; simpl.
    + intros [H|H]; [inversion H; left; auto|right; right; exact H].
    + intros [H|H]; [right; left; exact H|].
      destruct (IH H) as [E|E]; [left; exact E|right; right; exact E].
Qed.

Lemma dict_get_own_in :
  forall {A} (d : list (string * A)) k a, dict_get d k = Own a -> In (k, a) d.
Proof.
  intros A d k a. induction d as [|[k0 a0] d IH]; simpl.
  - destruct (is_proto_key k); discriminate.
  - destruct (String.eqb_spec k k0) as [->|_].
    + intros H; inversion H; left; reflexivity.
    + intros H; right; exact (IH H).
Qed.

Lemma dict_get_inherited :
  forall {A} (d : list (string * A)) k k', dict_get d k = Inherited k' -> is_proto_key k = true.
Proof.
  intros A d k k'. induction d as [|[k0 a0] d IH]; simpl.
  - destruct (is_proto_key k); [reflexivity|discriminate].
  - destruct (String.eqb k k0); [discriminate|exact IH].
Qed.

Lemma dict_get_in_own :
  forall {A} (d : list (string * A)) k, In k (map fst d) -> exists a, dict_get d k = Own a.
Proof.
  intros A d k. induction d as [|[k0 a0] d IH]; simpl; [intros []|].
  destruct (String.eqb_spec k k0) as [->|Hne]; [eexists; reflexivity|].
  intros [->|H]; [contradiction|exact (IH H)].
Qed.

Lemma fold_throw :
  forall {A B} (g : res A -> B -> res A) es m,
    (forall x, g (Throw m) x = Throw m) -> fold_left g es (Throw m) = Throw m.
Proof.
  intros A B g es m Hg. induction es as [|x es IH]; simpl; [reflexivity|].
  rewrite Hg. exact IH.
Qed.

Lemma pass1_fold_inv :
  forall reg schemas ids es acc base,
    fold_left (fun acc '(id, a) =>
                 base <- acc ;;
                 b <- make_agent reg schemas id a [] ;;
                 Ok (dict_set base id b)) es acc = Ok base ->
    incl (map fst es) ids ->
    (forall b0, acc = Ok b0 -> base_inv ids b0) ->
    base_inv ids base.
Proof.
  intros reg schemas ids es. induction es as [|[id a] es IH]; simpl;
    intros acc base H Hincl Hacc.
  - exact (Hacc base H).
  - destruct acc as [b0|m].
    + simpl in H.
      destruct (make_agent reg schemas id a []) as [b|m] eqn:Em; simpl in H.
      * apply (IH _ _ H); [intros x Hx; apply Hincl; right; exact Hx|].
        intros b1 E; inversion E; subst b1.
        intros k b' Hin. destruct (dict_set_in _ _ _ _ _ Hin) as [[-> ->]|Hin'].
        -- split; [apply Hincl; left; reflexivity|exact (make_agent_tools _ _ _ _ _ _ Em)].
        -- exact (Hacc b0 eq_refl k b' Hin').
      * rewrite fold_throw in H by (intros [? ?]; reflexivity). discriminate.
    + simpl in H. rewrite fold_throw in H by (intros [? ?]; reflexivity). discriminate.
Qed.

Lemma pass1_inv :
  forall es reg schemas base,
    pass1 es reg schemas = Ok base -> base_inv (map fst es) base.
Proof.
  intros es reg schemas base H.
  apply (pass1_fold_inv reg schemas (map fst es) es (Ok []) base H (incl_refl _)).
  intros b0 E; inversion E; subst. intros k b [].
Qed.

(** Replacing one element of the iterated list by one the step function
    treats the same leaves a [fold_left] unchanged. *)
Lemma fold_left_same_step :
  forall {A B} (g : A -> B -> A) l1 l2 x x' acc,
    (forall acc, g acc x = g acc x') ->
    fold_left g (l1 ++ x :: l2) acc = fold_left g (l1 ++ x' :: l2) acc.
Proof.
  intros A B g l1 l2 x x' acc Hg.
  rewrite !fold_left_app. simpl. rewrite Hg. reflexivity.
Qed.

Lemma dict_set_keys :
  forall {A} (d : list (string * A)) k a k',
    In k' (map fst (dict_set d k a)) <-> k' = k \/ In k' (map fst d).
Proof.
  intros A d k a k'. induction d as [|[k0 a0] d IH]; simpl.
  - split; [intros [->|[]]; left; reflexivity|intros [->|[]]; left; reflexivity].
  - destruct (String.eqb_spec k k0) as [->|_]; simpl.
    + split; intros [H|H]; subst; auto; destruct H; auto.
    + rewrite IH. split; intros [H|H]; subst; auto; destruct H; auto.
Qed.

Lemma pass1_fold_keys :
  forall reg schemas es acc base,
    fold_left (fun acc '(id, a) =>
                 base <- acc ;;
                 b <- make_agent reg schemas id a [] ;;
                 Ok (dict_set base id b)) es acc = Ok base ->
    forall b0, acc = Ok b0 ->
    incl (map fst b0 ++ map fst es) (map fst base).
Proof.
  intros reg schemas es. induction es as [|[id a] es IH]; simpl;
    intros acc base H b0 Hacc; rewrite Hacc in H; clear acc Hacc.
  - simpl in H. inversion H; subst. rewrite app_nil_r. apply incl_refl.
  - simpl in H. destruct (make_agent reg schemas id a []) as [b|m]; simpl in H.
    + specialize (IH _ _ H _ eq_refl).
      intros k Hk. apply IH. apply in_app_or in Hk as [Hk|[->|Hk]]; apply in_or_app.
      * left. apply dict_set_keys. right. exact Hk.
      * left. apply dict_set_keys. left. reflexivity.
      * right. exact Hk.
    + rewrite fold_throw in H by (intros [? ?]; reflexivity). discriminate.
Qed.

Lemma pass1_keys :
  forall es reg schemas base,
    pass1 es reg schemas = Ok base -> incl (map fst es) (map fst base).
Proof.
  intros es reg schemas base H k Hk.
  exact (pass1_fold_keys reg schemas es (Ok []) base H [] eq_refl k Hk).
Qed.

(** A key that is neither a configured id nor an [Object.prototype] member
    is missing from the pass-1 base. *)
Lemma pass1_missing :
  forall es reg schemas base k,
    pass1 es reg schemas = Ok base ->
    ~ In k (map fst es) -> is_proto_key k = false ->
    dict_get base k = Missing.
Proof.
  intros es reg schemas base k H Hnin Hproto.
  destruct (dict_get base k) as [b|k'|] eqn:E; [| |reflexivity].
  - apply dict_get_own_in in E. exfalso. apply Hnin.
    exact (proj1 (pass1_inv es reg schemas base H k b E)).
  - apply dict_get_inherited in E. congruence.
Qed.

(** C8 (counterexample).  Agent [A] lists the tool
    [{kind: 'agent', ref: 'nonexistent'}].  The registry build succeeds
    and the tool is absent, but [buildAgents] writes no warning: the
    console-line component of the result is empty. *)
Lemma buildAgents_unknown_tool_no_warning_cex :
  buildAgents
    (Some [("A", Fixtures.agent_spec "basic" (Some [Fixtures.agent_tool "nonexistent"]))])
    [] [("basic", Fixtures.basic_schema)]
  = (Ok [("A", Agent "A" "" (ZObject [("result", ZString)] false) (VObj []) [] [])], []).
Proof. reflexivity. Qed.

(** C8 (amended).  In a config where no agent id is ["__proto__"] (an
    assignment to that key relinks the registry's prototype instead of
    adding an entry):  (1) if an agent's [tools] array holds an entry [t] whose
    [ref] is neither a configured agent id nor an [Object.prototype]
    member name, the registry build gives exactly what it gives with that
    entry removed (so the entry is silently absent and causes no failure),
    and no warning is written.  (2) If pass 1 succeeds, an [agent]-kind
    tool whose [ref] is a configured id is wrapped from that id's pass-1
    base handle, which carries no tools, under the name [t.id || t.ref]
    ([tool_name]) and the description [t.description] or
    ["Tool for agent " ++ ref]. *)
Theorem buildAgents_unknown_tool_absent :
  (forall l1 l2 id a pre t post reg schemas,
      ~ In "__proto__" (map fst (app l1 ((id, a) :: l2))) ->
      a_tools a = Some (app pre (t :: post)) ->
      ~ In (key_of (t_ref t)) (map fst (app l1 ((id, a) :: l2))) ->
      is_proto_key (key_of (t_ref t)) = false ->
      buildAgents (Some (app l1 ((id, a) :: l2))) reg schemas
      = buildAgents (Some (app l1 ((id, with_tools a (Some (app pre post))) :: l2))) reg schemas
      /\ snd (buildAgents (Some (app l1 ((id, a) :: l2))) reg schemas) = [])
  /\
  (forall entries reg schemas base t,
      ~ In "__proto__" (map fst entries) ->
      pass1 entries reg schemas = Ok base ->
      opt_is (t_kind t) "agent" = true ->
      In (key_of (t_ref t)) (map fst entries) ->
      exists b, dict_get base (key_of (t_ref t)) = Own b
           /\ agent_tools b = []
           /\ build_tools base [t]
              = Ok [AsTool (tool_name t)
                      (or_str (t_description t) ("Tool for agent " ++ key_of (t_ref t))) b]).
Proof.
  split.
  - intros l1 l2 id a pre t post reg schemas _ Ha Hnin Hproto. split; [|reflexivity].
    unfold buildAgents. simpl opt_list.
    assert (E1 : pass1 (app l1 ((id, a) :: l2)) reg schemas
                 = pass1 (app l1 ((id, with_tools a (Some (app pre post))) :: l2)) reg schemas).
    { unfold pass1. apply fold_left_same_step. intros acc.
      rewrite make_agent_ignores_tools_field. reflexivity. }
    rewrite <- E1.
    destruct (pass1 (app l1 ((id, a) :: l2)) reg schemas) as [base|m] eqn:Ep;
      [simpl|reflexivity].
    assert (Hm : dict_get base (key_of (t_ref t)) = Missing)
      by exact (pass1_missing _ _ _ _ _ Ep Hnin Hproto).
    f_equal. unfold pass2. apply fold_left_same_step. intros acc.
    destruct acc as [fin|m]; [simpl|reflexivity].
    rewrite Ha. simpl opt_list.
    rewrite (build_tools_skip_missing base t post pre Hm).
    destruct (build_tools base (app pre post)) as [tools|m]; [simpl|reflexivity].
    rewrite make_agent_ignores_tools_field. reflexivity.
  - intros entries reg schemas base t _ Hp Hk Hin.
    destruct (dict_get_in_own base (key_of (t_ref t)) (pass1_keys _ _ _ _ Hp _ Hin))
      as [b Hb].
    exists b. split; [exact Hb|]. split.
    + exact (proj2 (pass1_inv _ _ _ _ Hp _ _ (dict_get_own_in _ _ _ Hb))).
    + simpl. rewrite Hk, Hb. reflexivity.
Qed.

Lemma buildAgents_unknown_tool_absent_witness :
  let cfg := [("A", Fixtures.agent_spec "basic"
                       (Some [Fixtures.agent_tool "nonexistent"; Fixtures.agent_tool "B"]));
              ("B", Fixtures.agent_spec "basic" None)] in
  buildAgents (Some cfg) [] [("basic", Fixtures.basic_schema)]
  = buildAgents (Some [("A", with_tools (Fixtures.agent_spec "basic"
                                (Some [Fixtures.agent_tool "nonexistent"; Fixtures.agent_tool "B"]))
                                (Some [Fixtures.agent_tool "B"]));
                       ("B", Fixtures.agent_spec "basic" None)])
                [] [("basic", Fixtures.basic_schema)]
  /\ snd (buildAgents (Some cfg) [] [("basic", Fixtures.basic_schema)]) = []
  /\ exists b, dict_get (match pass1 cfg [] [("basic", Fixtures.basic_schema)] with
                         | Ok base => base | Throw _ => [] end) "B" = Own b
       /\ agent_tools b = [].
Proof.
  intros cfg.
  destruct (proj1 buildAgents_unknown_tool_absent [] [("B", Fixtures.agent_spec "basic" None)]
              "A" (Fixtures.agent_spec "basic"
                     (Some [Fixtures.agent_tool "nonexistent"; Fixtures.agent_tool "B"]))
              [] (Fixtures.agent_tool "nonexistent") [Fixtures.agent_tool "B"]
              [] [("basic", Fixtures.basic_schema)]) as [E S];
    [simpl; intros [H|[H|[]]]; discriminate | reflexivity
    | simpl; intros [H|[H|[]]]; discriminate | reflexivity |].
  split; [exact E|]. split; [exact S|].
  destruct (proj2 buildAgents_unknown_tool_absent cfg [] [("basic", Fixtures.basic_schema)]
              (match pass1 cfg [] [("basic", Fixtures.basic_schema)] with
               | Ok base => base | Throw _ => [] end)
              (Fixtures.agent_tool "B")) as [b [Hb [Ht _]]];
    [simpl; intros [H|[H|[]]]; discriminate | vm_compute; reflexivity | reflexivity | simpl; right; left; reflexivity |].
  exists b. split; [exact Hb | exact Ht].
Defined.

(* ------------------------------------------------------------------ *)
(** * Further properties of the engine, the file runners and [guessMimeType] *)

Lemma rev_str_app :
  forall x y acc, rev_str (x ++ y) acc = rev_str y (rev_str x acc).
Proof. induction x as [|c x IH]; intros y acc; simpl; [reflexivity|apply IH]. Qed.

Lemma lower_ascii_app :
  forall x y, lower_ascii (x ++ y) = lower_ascii x ++ lower_ascii y.
Proof. induction x as [|c x IH]; intros y; simpl; [reflexivity|rewrite IH; reflexivity]. Qed.

(** X1: the MIME type is read off the file name's extension, whatever its
    letter case: a name [base ++ sfx] whose suffix [sfx] lower-cases to a
    listed extension gets that extension's type; an absent or empty name
    gets [application/octet-stream]. *)
Theorem guessMimeType_extension :
  (forall base sfx mime,
     In (lower_ascii sfx, mime) mime_table ->
     guessMimeType (VStr (base ++ sfx)) = mime) /\
  (forall v, truthy v = false -> guessMimeType v = "application/octet-stream").
Proof.
  split.
  - intros base sfx mime H.
    assert (Hts : to_string (or_else (VStr (base ++ sfx)) (VStr "")) = base ++ sfx).
    { destruct sfx as [|c sfx].
      - simpl in H. exfalso.
        repeat (destruct H as [H|H]; [discriminate H|]). exact H.
      - unfold or_else. simpl.
        destruct base; reflexivity. }
    unfold guessMimeType. rewrite Hts, lower_ascii_app. unfold ends_with.
    rewrite rev_str_app.
    generalize (rev_str (lower_ascii base) EmptyString) as acc. intros acc.
    simpl in H.
    repeat (destruct H as [H|H];
            [injection H as E1 E2; rewrite <- E1, <- E2; destruct acc; reflexivity|]).
    contradiction.
  - intros v H. unfold guessMimeType, or_else. rewrite H. reflexivity.
Qed.

Lemma guessMimeType_extension_witness :
  In (lower_ascii ".PDF", "application/pdf") mime_table /\
  guessMimeType (VStr ("report" ++ ".PDF")) = "application/pdf" /\
  truthy VUndef = false /\ guessMimeType VUndef = "application/octet-stream".
Proof.
  assert (H : In (lower_ascii ".PDF", "application/pdf") mime_table)
    by (simpl; right; right; right; left; reflexivity).
  split; [exact H|]. split; [exact (proj1 guessMimeType_extension _ _ _ H)|].
  split; [reflexivity|]. exact (proj2 guessMimeType_extension VUndef eq_refl).
Defined.

Lemma ensureOpenAIKey_explicit :
  forall k env, k <> "" -> fst (ensureOpenAIKey (Some k) env) = Some k.
Proof.
  intros k env H. unfold ensureOpenAIKey.
  destruct (String.eqb_spec k "") as [E|_]; [contradiction|reflexivity].
Qed.

Lemma ensureOpenAIKey_missing :
  forall apiKey env,
    (apiKey = None \/ apiKey = Some "") ->
    (env = None \/ exists s, env = Some s /\ trim s = "") ->
    ensureOpenAIKey apiKey env
    = (env, Throw "Missing OpenAI API key. Provide --api-key or set OPENAI_API_KEY.").
Proof.
  intros apiKey env Ha He. unfold ensureOpenAIKey.
  destruct Ha as [->| ->]; simpl;
    (destruct He as [->|(s & -> & Hs)]; [reflexivity|rewrite Hs; reflexivity]).
Qed.

(** X2: an explicit non-empty key becomes [OPENAI_API_KEY] whatever the
    environment held; once the key check succeeds with key [k], the
    environment holds [k], [k] is not blank, and a later call without an
    explicit key returns [k] again. *)
Theorem ensureOpenAIKey_override_and_reuse :
  (forall k env, k <> "" -> fst (ensureOpenAIKey (Some k) env) = Some k) /\
  (forall apiKey env env' k,
     ensureOpenAIKey apiKey env = (env', Ok k) ->
     env' = Some k /\ trim k <> "" /\ ensureOpenAIKey None env' = (env', Ok k)).
Proof.
  split; [exact ensureOpenAIKey_explicit|].
  intros apiKey env env' k H.
  assert (G : forall e, (e, match e with
                            | Some k0 => if String.eqb (trim k0) "" then
                                 Throw "Missing OpenAI API key. Provide --api-key or set OPENAI_API_KEY."
                                 else Ok k0
                            | None => Throw "Missing OpenAI API key. Provide --api-key or set OPENAI_API_KEY."
                            end) = (env', Ok k) ->
                 env' = Some k /\ trim k <> "" /\ ensureOpenAIKey None env' = (env', Ok k)).
  { intros [e|] E; [|discriminate].
    destruct (String.eqb_spec (trim e) "") as [Ht|Ht]; [discriminate|].
    injection E as <- <-. split; [reflexivity|]. split; [exact Ht|].
    unfold ensureOpenAIKey. destruct (String.eqb_spec (trim e) "");
      [contradiction|reflexivity]. }
  unfold ensureOpenAIKey in H.
  destruct apiKey as [a|]; [destruct (String.eqb a "")|]; exact (G _ H).
Qed.

Lemma ensureOpenAIKey_override_and_reuse_witness :
  ("sk-new" <> "" /\ fst (ensureOpenAIKey (Some "sk-new") (Some "sk-old")) = Some "sk-new") /\
  (ensureOpenAIKey (Some "sk-new") None = (Some "sk-new", Ok "sk-new") /\
   ensureOpenAIKey None (Some "sk-new") = (Some "sk-new", Ok "sk-new")).
Proof.
  split.
  - split; [discriminate|].
    apply (proj1 ensureOpenAIKey_override_and_reuse). discriminate.
  - assert (E : ensureOpenAIKey (Some "sk-new") None = (Some "sk-new", Ok "sk-new"))
      by reflexivity.
    split; [exact E|].
    exact (proj2 (proj2 (proj2 ensureOpenAIKey_override_and_reuse _ _ _ _ E))).
Defined.

(** X3: [runFlow] writes an explicit non-empty [apiKey] into
    [OPENAI_API_KEY] even when it then fails; without a usable key (no
    explicit key and an absent or blank [OPENAI_API_KEY]) it throws the
    missing-key error before any other work: the world is untouched. *)
Theorem runFlow_api_key :
  (forall (W : Type) run connect fn_call json_stringify config prompt k env (w : W),
     k <> "" ->
     fst (snd (runFlow run connect fn_call json_stringify config prompt (Some k) env w))
     = Some k) /\
  (forall (W : Type) run connect fn_call json_stringify config prompt apiKey env (w : W),
     (apiKey = None \/ apiKey = Some "") ->
     (env = None \/ exists s, env = Some s /\ trim s = "") ->
     runFlow run connect fn_call json_stringify config prompt apiKey env w
     = (Throw "Missing OpenAI API key. Provide --api-key or set OPENAI_API_KEY.", (env, w))).
Proof.
  split.
  - intros W run connect fn_call js config prompt k env w Hk.
    pose proof (ensureOpenAIKey_explicit k env Hk) as E.
    unfold runFlow.
    destruct (ensureOpenAIKey (Some k) env) as [env' key]. simpl in E. subst env'.
    destruct key; [|reflexivity].
    destruct (validateConfig config); [|reflexivity].
    match goal with |- context [let '(r, w') := ?b w in _] => destruct (b w) end.
    reflexivity.
  - intros W run connect fn_call js config prompt apiKey env w Ha He.
    unfold runFlow. rewrite (ensureOpenAIKey_missing apiKey env Ha He). reflexivity.
Qed.

Lemma runFlow_api_key_witness :
  ("sk-new" <> "" /\
   fst (snd (runFlow (Fixtures.echo_run VNull) Fixtures.no_connect Fixtures.mini_eval
               Fixtures.json_stub Fixtures.empty_flow_config "p" (Some "sk-new")
               (Some "sk-old") tt)) = Some "sk-new") /\
  ((None : option string) = None \/ (None : option string) = Some "") /\
  (Some " " = None \/ exists s, Some " " = Some s /\ trim s = "") /\
  runFlow (Fixtures.echo_run VNull) Fixtures.no_connect Fixtures.mini_eval
    Fixtures.json_stub Fixtures.single_agent_config "p" None (Some " ") tt
  = (Throw "Missing OpenAI API key. Provide --api-key or set OPENAI_API_KEY.", (Some " ", tt)).
Proof.
  split.
  - split; [discriminate|]. apply (proj1 runFlow_api_key). discriminate.
  - split; [left; reflexivity|]. split; [right; exists " "; split; reflexivity|].
    apply (proj2 runFlow_api_key).
    + left; reflexivity.
    + right; exists " "; split; reflexivity.
Defined.

Lemma toZod_unfold : forall f v, toZod (S f) v = toZod_body (toZod f) v.
Proof. reflexivity. Qed.

Lemma value_size_pos : forall v, 1 <= value_size v.
Proof. destruct v; simpl; lia. Qed.

Lemma value_size_field :
  forall fs k x, In (k, x) fs ->
    value_size x <= fold_right (fun (p : string * value) n => value_size (snd p) + n) 0 fs.
Proof.
  induction fs as [|[k0 x0] fs IH]; simpl; intros k x H; [contradiction|].
  destruct H as [E|H]; [inversion E; subst; lia|]. specialize (IH k x H). lia.
Qed.

Lemma value_size_elem :
  forall l x, In x l -> value_size x <= fold_right (fun x n => value_size x + n) 0 l.
Proof.
  induction l as [|x0 l IH]; simpl; intros x H; [contradiction|].
  destruct H as [->|H]; [lia|]. specialize (IH x H). lia.
Qed.

Lemma obj_get_in :
  forall fs k, obj_get fs k = VUndef \/ In (k, obj_get fs k) fs.
Proof.
  induction fs as [|[k0 x0] fs IH]; simpl; intros k; [left; reflexivity|].
  destruct (String.eqb_spec k k0) as [->|_]; [right; left; reflexivity|].
  destruct (IH k) as [H|H]; [left; exact H|right; right; exact H].
Qed.

Lemma required_ok_field :
  forall fs k x, required_ok (VObj fs) = true -> In (k, x) fs -> required_ok x = true.
Proof.
  intros fs k x H Hin. simpl in H. apply andb_prop in H as [_ H].
  induction fs as [|[k0 x0] fs IH]; simpl in *; [contradiction|].
  apply andb_prop in H as [H1 H2].
  destruct Hin as [E|Hin]; [inversion E; subst; exact H1|exact (IH H2 Hin)].
Qed.

Lemma required_ok_elem :
  forall l x, required_ok (VArr l) = true -> In x l -> required_ok x = true.
Proof.
  intros l x H Hin. simpl in H.
  induction l as [|x0 l IH]; simpl in *; [contradiction|].
  apply andb_prop in H as [H1 H2].
  destruct Hin as [->|Hin]; [exact H1|exact (IH H2 Hin)].
Qed.

Lemma indexed_in :
  forall {A} (l : list A) i k x, In (k, x) (indexed i l) -> In x l.
Proof.
  induction l as [|y l IH]; simpl; intros i k x H; [contradiction|].
  destruct H as [E|H]; [inversion E; subst; left; reflexivity|right; exact (IH _ _ _ H)].
Qed.

Lemma chars_in :
  forall s x, In x (chars s) -> exists c, x = VStr (String c EmptyString).
Proof.
  induction s as [|c s IH]; simpl; intros x H; [contradiction|].
  destruct H as [<-|H]; [exists c; reflexivity|exact (IH x H)].
Qed.

(** An entry of [Object.entries(p)] is no larger than [p] and inherits
    [required_ok]. *)
Lemma object_entries_bound :
  forall p k x, In (k, x) (object_entries p) ->
    value_size x <= value_size p /\ (required_ok p = true -> required_ok x = true).
Proof.
  intros p k x H. destruct p; simpl in H; try contradiction.
  - apply indexed_in, chars_in in H as [c ->]. split; [simpl; lia|reflexivity].
  - apply indexed_in in H. split.
    + simpl. pose proof (value_size_elem l x H). lia.
    + intros Hp. exact (required_ok_elem l x Hp H).
  - split.
    + simpl. pose proof (value_size_field fields k x H). lia.
    + intros Hp. exact (required_ok_field fields k x Hp H).
Qed.

Lemma shape_of_total :
  forall rec req es,
    (forall k x, In (k, x) es -> is_throw (rec x) = false) ->
    is_throw (shape_of rec req es) = false.
Proof.
  intros rec req. induction es as [|[k x] es IH]; simpl; intros H; [reflexivity|].
  specialize (H k x (or_introl eq_refl)) as Hx.
  destruct (rec x) as [z|e]; [simpl|discriminate].
  assert (Hr : is_throw (shape_of rec req es) = false)
    by (apply IH; intros k' x' Hin; exact (H k' x' (or_intror Hin))).
  change ((fix go (es : list (string * value)) : res (list (string * zod)) :=
    match es with
    | [] => Ok []
    | (k, v) :: r =>
        zf <- rec v ;;
        let zf := if set_has req k then zf else ZOptional zf in
        rest <- go r ;;
        Ok ((k, zf) :: rest)
    end) es) with (shape_of rec req es).
  destruct (shape_of rec req es); [reflexivity|discriminate].
Qed.

Lemma toZod_total :
  forall f v, value_size v <= f -> required_ok v = true -> is_throw (toZod (S f) v) = false.
Proof.
  induction f as [|m IH]; intros v Hs Hok.
  - pose proof (value_size_pos v). lia.
  - rewrite toZod_unfold. unfold toZod_body.
    destruct v as [| | b | z | s | l | fs | n]; simpl member;
      try (destruct (negb (truthy _)); reflexivity).
    simpl in Hs.
    assert (Hfs : forall k x, In (k, x) fs ->
                  value_size x <= m /\ required_ok x = true).
    { intros k x Hin. split.
      - pose proof (value_size_field fs k x Hin). lia.
      - exact (required_ok_field fs k x Hok Hin). }
    assert (Hget : forall k, truthy (obj_get fs k) = true ->
                   value_size (obj_get fs k) <= m /\ required_ok (obj_get fs k) = true).
    { intros k Ht. destruct (obj_get_in fs k) as [E|Hin];
        [rewrite E in Ht; discriminate|exact (Hfs k _ Hin)]. }
    simpl negb. cbv iota beta.
    destruct (is_str (obj_get fs "type") "string"); [reflexivity|].
    destruct (is_str (obj_get fs "type") "number" || is_str (obj_get fs "type") "integer");
      [reflexivity|].
    destruct (is_str (obj_get fs "type") "boolean"); [reflexivity|].
    destruct (is_str (obj_get fs "type") "array") eqn:Ea.
    + assert (Hi : value_size (or_else (obj_get fs "items") (VObj [])) <= m /\
                   required_ok (or_else (obj_get fs "items") (VObj [])) = true).
      { unfold or_else. destruct (truthy (obj_get fs "items")) eqn:Et.
        - exact (Hget _ Et).
        - split; [|reflexivity].
          assert (Tt : truthy (obj_get fs "type") = true)
            by (destruct (obj_get fs "type"); try discriminate;
                simpl in Ea; apply String.eqb_eq in Ea; subst; reflexivity).
          pose proof (proj1 (Hget _ Tt)). pose proof (value_size_pos (obj_get fs "type")).
          simpl. lia. }
      destruct Hi as [Hi1 Hi2].
      pose proof (IH _ Hi1 Hi2) as Hr.
      destruct (toZod (S m) _); [reflexivity|discriminate].
    + destruct (is_str (obj_get fs "type") "object" || truthy (obj_get fs "properties"));
        [|reflexivity].
      simpl in Hok. apply andb_prop in Hok as [Hreq _].
      destruct (new_set (or_else (obj_get fs "required") (VArr []))) as [req|e];
        [simpl|discriminate].
      assert (Hsh : is_throw (shape_of (toZod (S m)) req
                 (object_entries (or_else (obj_get fs "properties") (VObj [])))) = false).
      { apply shape_of_total. intros k x Hin.
        unfold or_else in Hin. destruct (truthy (obj_get fs "properties")) eqn:Et;
          [|simpl in Hin; contradiction].
        destruct (Hget _ Et) as [Hp1 Hp2].
        destruct (object_entries_bound _ _ _ Hin) as [Hx1 Hx2].
        apply IH; [lia|exact (Hx2 Hp2)]. }
      destruct (shape_of _ _ _); [reflexivity|discriminate].
Qed.

(** X4: the schema translator never throws on a schema in which every
    object has a [required] member that [new Set] accepts (absent, falsy,
    an array or a string); the translation's recursion is bounded by the
    schema's size. *)
Theorem jsonSchemaToZod_total_on_iterable_required :
  forall schema, required_ok schema = true -> is_throw (jsonSchemaToZod schema) = false.
Proof.
  intros schema H. unfold jsonSchemaToZod. exact (toZod_total _ schema (le_n _) H).
Qed.

Lemma jsonSchemaToZod_total_on_iterable_required_witness :
  required_ok Fixtures.nested_schema = false /\
  required_ok Fixtures.basic_schema = true /\
  is_throw (jsonSchemaToZod Fixtures.basic_schema) = false.
Proof.
  split; [reflexivity|]. split; [reflexivity|].
  apply jsonSchemaToZod_total_on_iterable_required. reflexivity.
Defined.

Lemma toZod_not_optional :
  forall n v z, toZod n v = Ok z -> forall z', z <> ZOptional z'.
Proof.
  intros [|f] v z H z' ->; [discriminate|].
  rewrite toZod_unfold in H. unfold toZod_body in H.
  destruct (negb (truthy v)); [discriminate|].
  destruct (is_str (member v "type") "string");
    [destruct (truthy (member v "enum")); discriminate|].
  destruct (is_str (member v "type") "number" || is_str (member v "type") "integer");
    [discriminate|].
  destruct (is_str (member v "type") "boolean"); [discriminate|].
  destruct (is_str (member v "type") "array").
  - destruct (toZod f _); discriminate.
  - destruct (is_str (member v "type") "object" || truthy (member v "properties"));
      [|discriminate].
    destruct (new_set _); [simpl in H|discriminate].
    destruct (shape_of _ _ _); discriminate.
Qed.

Lemma shape_of_spec :
  forall rec req es sh,
    shape_of rec req es = Ok sh ->
    map fst sh = map fst es /\
    forall k z, In (k, z) sh ->
      exists x z0, In (k, x) es /\ rec x = Ok z0 /\
                   z = if set_has req k then z0 else ZOptional z0.
Proof.
  intros rec req. induction es as [|[k x] es IH]; simpl; intros sh H.
  - inversion H; subst. split; [reflexivity|intros k z []].
  - destruct (rec x) as [z0|e] eqn:Ex; [simpl in H|discriminate].
    change ((fix go (es : list (string * value)) : res (list (string * zod)) :=
      match es with
      | [] => Ok []
      | (k, v) :: r =>
          zf <- rec v ;;
          let zf := if set_has req k then zf else ZOptional zf in
          rest <- go r ;;
          Ok ((k, zf) :: rest)
      end) es) with (shape_of rec req es) in H.
    destruct (shape_of rec req es) as [rest|e]; [simpl in H|discriminate].
    inversion H; subst. destruct (IH rest eq_refl) as [K S].
    split; [simpl; rewrite K; reflexivity|].
    intros k' z [E|Hin].
    + inversion E; subst. exists x, z0. split; [left; reflexivity|]. split; [exact Ex|reflexivity].
    + destruct (S k' z Hin) as (x' & z1 & H1 & H2 & H3).
      exists x', z1. split; [right; exact H1|]. split; [exact H2|exact H3].
Qed.

Lemma toZod_object_shape :
  forall fs req shape strict,
    new_set (or_else (obj_get fs "required") (VArr [])) = Ok req ->
    jsonSchemaToZod (VObj fs) = Ok (ZObject shape strict) ->
    map fst shape = map fst (object_entries (or_else (obj_get fs "properties") (VObj []))) /\
    (forall k z, In (k, z) shape -> (set_has req k = false <-> exists z', z = ZOptional z')) /\
    (strict = true <-> obj_get fs "additionalProperties" = VBool false).
Proof.
  intros fs req shape strict Hreq H.
  unfold jsonSchemaToZod in H.
  rewrite toZod_unfold in H. set (rec := toZod (value_size (VObj fs))) in H.
  unfold toZod_body in H. simpl member in H.
  simpl negb in H. cbv iota beta in H.
  destruct (is_str (obj_get fs "type") "string");
    [destruct (truthy (obj_get fs "enum")); discriminate|].
  destruct (is_str (obj_get fs "type") "number" || is_str (obj_get fs "type") "integer");
    [discriminate|].
  destruct (is_str (obj_get fs "type") "boolean"); [discriminate|].
  destruct (is_str (obj_get fs "type") "array"); [destruct (rec _); discriminate|].
  destruct (is_str (obj_get fs "type") "object" || truthy (obj_get fs "properties"));
    [|discriminate].
  rewrite Hreq in H. simpl in H.
  destruct (shape_of _ req _) as [sh|e] eqn:Es; [simpl in H|discriminate].
  injection H as <- <-.
  destruct (shape_of_spec _ _ _ _ Es) as [K S].
  split; [exact K|]. split.
  - intros k z Hin. destruct (S k z Hin) as (x & z0 & _ & Hz0 & ->).
    pose proof (toZod_not_optional _ _ _ Hz0 : forall z', z0 <> ZOptional z') as Hno.
    destruct (set_has req k); split.
    + discriminate.
    + intros [z' E]. exfalso. exact (Hno z' E).
    + intros _. exists z0. reflexivity.
    + reflexivity.
  - destruct (obj_get fs "additionalProperties") as [| | [|] | | | | |];
      split; intro E; try discriminate; reflexivity.
Qed.



Lemma set_has_chars_long :
  forall s k, String.length k <> 1 -> set_has (chars s) k = false.
Proof.
  intros s k Hk. induction s as [|c s IH]; [reflexivity|].
  unfold set_has in *. cbn [chars existsb]. rewrite IH, orb_false_r. unfold is_str.
  destruct (String.eqb_spec (String c EmptyString) k) as [<-|_]; [simpl in Hk; lia|reflexivity].
Qed.

(** X6: an output schema whose [required] is a string containing
    ["result"] (for instance [required: "result"]) passes the schema check
    of [validateConfig], which uses [includes], yet the translator builds
    [new Set] of its characters, so the [result] property of the
    translated schema is optional. *)
Theorem required_string_passes_check_but_result_optional :
  forall name fs pfs s shape strict,
    obj_get fs "properties" = VObj pfs ->
    truthy (obj_get pfs "result") = true ->
    obj_get fs "required" = VStr s ->
    str_includes s "result" = true ->
    check_schemas [(name, VObj fs)] = Ok tt /\
    (jsonSchemaToZod (VObj fs) = Ok (ZObject shape strict) ->
     forall z, In ("result", z) shape -> exists z', z = ZOptional z').
Proof.
  intros name fs pfs s shape strict Hp Hr Hq Hs. split.
  - simpl. rewrite Hp. simpl. rewrite Hr. simpl. rewrite Hq. simpl. rewrite Hs. reflexivity.
  - intros H z Hin.
    assert (Hne : s <> EmptyString) by (intros ->; discriminate Hs).
    assert (Hreq : new_set (or_else (obj_get fs "required") (VArr [])) = Ok (chars s)).
    { rewrite Hq. unfold or_else. simpl.
      destruct (String.eqb_spec s "") as [E|_]; [contradiction|reflexivity]. }
    destruct (toZod_object_shape fs _ _ _ Hreq H) as (_ & Hopt & _).
    apply (proj1 (Hopt _ _ Hin)). apply set_has_chars_long. simpl. lia.
Qed.

Lemma required_string_passes_check_but_result_optional_witness :
  let fs := [("type", VStr "object"); ("required", VStr "result");
             ("properties", VObj [("result", VObj [("type", VStr "string")])])] in
  check_schemas [("basic", VObj fs)] = Ok tt /\
  jsonSchemaToZod (VObj fs) = Ok (ZObject [("result", ZOptional ZString)] false).
Proof.
  intros fs.
  destruct (required_string_passes_check_but_result_optional "basic" fs
              [("result", VObj [("type", VStr "string")])] "result"
              [("result", ZOptional ZString)] false eq_refl eq_refl eq_refl eq_refl)
    as [H1 _].
  split; [exact H1|reflexivity].
Defined.

Lemma check_schemas_ok :
  forall l,
    (forall name s, In (name, s) l ->
       exists fs pfs rl, s = VObj fs /\ obj_get fs "properties" = VObj pfs /\
         truthy (obj_get pfs "result") = true /\ obj_get fs "required" = VArr rl /\
         In (VStr "result") rl) ->
    check_schemas l = Ok tt.
Proof.
  induction l as [|[name s] l IH]; intros H; [reflexivity|].
  destruct (H name s (or_introl eq_refl)) as (fs & pfs & rl & -> & Hp & Hr & Hq & Hin).
  simpl. rewrite Hp. simpl. rewrite Hr. simpl. rewrite Hq. simpl.
  assert (E : existsb (fun x => is_str x "result") rl = true)
    by (apply existsb_exists; exists (VStr "result"); split; [exact Hin|reflexivity]).
  rewrite E. simpl. apply IH. intros n s' Hin'. exact (H n s' (or_intror Hin')).
Qed.

Lemma check_agents_ok :
  forall schemas l,
    (forall name s, In (name, s) (opt_list schemas) -> exists fs, s = VObj fs) ->
    (forall id a, In (id, a) l ->
       exists ref, a_outputSchemaRef a = Some ref /\ ref <> "" /\
                   In ref (map fst (opt_list schemas))) ->
    check_agents schemas l = Ok tt.
Proof.
  intros schemas l Hs. induction l as [|[id a] l IH]; intros H; [reflexivity|].
  destruct (H id a (or_introl eq_refl)) as (ref & Href & Hne & Hin).
  simpl. rewrite Href.
  assert (Hf : truthy (match schemas with None => VUndef | Some d => dict_value d ref end) = true).
  { destruct schemas as [d|]; [|simpl in Hin; contradiction].
    destruct (dict_get_in_own d ref Hin) as [v Hv].
    destruct (Hs ref v (dict_get_own_in d ref v Hv)) as [fs ->].
    unfold dict_value. rewrite Hv. reflexivity. }
  destruct ref as [|c r]; [contradiction|].
  rewrite Hf. simpl. apply IH. intros id' a' Hin'. exact (H id' a' (or_intror Hin')).
Qed.

(** X7: [validateConfig] accepts every config that has a non-empty
    [flow.steps], whose output schemas are objects with a truthy
    [properties.result] and a [required] array listing ["result"], and
    whose agents each name a configured schema in [outputSchemaRef]. *)
Theorem validateConfig_accepts_well_formed :
  forall config fl st sts,
    flow config = Some fl -> flow_steps fl = Some (st :: sts) ->
    (forall name s, In (name, s) (opt_list (outputSchemas config)) ->
       exists fs pfs rl, s = VObj fs /\ obj_get fs "properties" = VObj pfs /\
         truthy (obj_get pfs "result") = true /\ obj_get fs "required" = VArr rl /\
         In (VStr "result") rl) ->
    (forall id a, In (id, a) (opt_list (agents config)) ->
       exists ref, a_outputSchemaRef a = Some ref /\ ref <> "" /\
                   In ref (map fst (opt_list (outputSchemas config)))) ->
    validateConfig config = Ok tt.
Proof.
  intros config fl st sts Hf Hst Hs Ha. unfold validateConfig.
  rewrite Hf, Hst. rewrite (check_schemas_ok _ Hs). simpl.
  apply check_agents_ok; [|exact Ha].
  intros name s Hin. destruct (Hs name s Hin) as (fs & _ & _ & -> & _). exists fs. reflexivity.
Qed.

Lemma validateConfig_accepts_well_formed_witness :
  validateConfig Fixtures.single_agent_config = Ok tt.
Proof.
  apply (validateConfig_accepts_well_formed Fixtures.single_agent_config
           {| flow_steps := Some [Fixtures.single_step "A"] |} (Fixtures.single_step "A") []
           eq_refl eq_refl).
  - intros name s [E|[]]. injection E as <- <-.
    eexists _, _, _. split; [reflexivity|]. split; [reflexivity|].
    split; [reflexivity|]. split; [reflexivity|]. left; reflexivity.
  - intros id a [E|[]]. injection E as <- <-.
    exists "basic". split; [reflexivity|]. split; [discriminate|]. left; reflexivity.
Defined.

Lemma dict_get_set :
  forall {A} (d : list (string * A)) k a k',
    dict_get (dict_set d k a) k' = if String.eqb k' k then Own a else dict_get d k'.
Proof.
  intros A d k a k'. induction d as [|[k0 a0] d IH]; simpl.
  - reflexivity.
  - destruct (String.eqb_spec k k0) as [->|Hne]; simpl.
    + destruct (String.eqb k' k0); reflexivity.
    + rewrite IH. destruct (String.eqb_spec k' k0) as [->|_]; [|reflexivity].
      destruct (String.eqb_spec k0 k) as [E|_]; [congruence|reflexivity].
Qed.

Lemma mcp_fold_other :
  forall l d id, ~ In id (map fst l) -> dict_get (fold_left mcp_step l d) id = dict_get d id.
Proof.
  induction l as [|[id0 cfg0] l IH]; simpl; intros d id Hn; [reflexivity|].
  rewrite IH by tauto. destruct (server_entry id0 cfg0); [|reflexivity].
  rewrite dict_get_set. destruct (String.eqb_spec id id0); [subst; tauto|reflexivity].
Qed.

Lemma mcp_fold_in :
  forall l d id cfg, NoDup (map fst l) -> In (id, cfg) l ->
    dict_get (fold_left mcp_step l d) id
    = match server_entry id cfg with Some h => Own h | None => dict_get d id end.
Proof.
  induction l as [|[id0 cfg0] l IH]; simpl; intros d id cfg Hnd Hin; [contradiction|].
  inversion Hnd as [|? ? Hn0 Hnd']; subst.
  destruct Hin as [E|Hin].
  - inversion E; subst. rewrite mcp_fold_other by exact Hn0.
    destruct (server_entry id cfg); [|reflexivity].
    rewrite dict_get_set, String.eqb_refl. reflexivity.
  - rewrite (IH _ _ _ Hnd' Hin). destruct (server_entry id cfg); [reflexivity|].
    assert (Hne : id <> id0)
      by (intros ->; apply Hn0; apply (in_map fst) in Hin; exact Hin).
    destruct (server_entry id0 cfg0); [|reflexivity].
    rewrite dict_get_set. destruct (String.eqb_spec id id0); [contradiction|reflexivity].
Qed.

Lemma buildMcpServers_registry :
  forall (W : Type) connect mcpConfig (w w' : W) reg,
    buildMcpServers connect mcpConfig w = (Ok reg, w') ->
    reg = fold_left mcp_step mcpConfig [].
Proof.
  intros W connect mcpConfig w w' reg H. unfold buildMcpServers, mbind, mret in H.
  destruct (connect_all connect _ None w) as [[u|e] w1]; [|discriminate].
  inversion H. reflexivity.
Qed.

(** X8: with distinct server ids, none of them ["__proto__"], the
    registry [buildMcpServers] returns maps each configured id to the handle its entry yields ([stdio] or
    [http], the type compared in lower case) and holds nothing for an id
    whose type is neither, nor for an id that is not configured. *)
Theorem buildMcpServers_lookup :
  forall (W : Type) connect mcpConfig (w w' : W) reg,
    NoDup (map fst mcpConfig) ->
    ~ In "__proto__" (map fst mcpConfig) ->
    buildMcpServers connect mcpConfig w = (Ok reg, w') ->
    (forall id cfg, In (id, cfg) mcpConfig ->
       forall h, dict_get reg id = Own h <-> server_entry id cfg = Some h) /\
    (forall id, ~ In id (map fst mcpConfig) -> forall h, dict_get reg id <> Own h).
Proof.
  intros W connect mcpConfig w w' reg Hnd _ H.
  apply buildMcpServers_registry in H. subst reg. split.
  - intros id cfg Hin h. rewrite (mcp_fold_in _ _ _ _ Hnd Hin).
    destruct (server_entry id cfg) as [h'|].
    + split; intros E; inversion E; reflexivity.
    + simpl. split; [destruct (is_proto_key id); discriminate|discriminate].
  - intros id Hn h. rewrite (mcp_fold_other _ _ _ Hn). simpl.
    destruct (is_proto_key id); discriminate.
Qed.

Lemma buildMcpServers_lookup_witness :
  let cfg := [("fs", {| s_type := Some "STDIO"; s_name := None; s_fullCommand := Some "npx";
                        s_args := Some ["srv"; ""]; s_url := None |});
              ("web", {| s_type := Some "Http"; s_name := None; s_fullCommand := None;
                         s_args := None; s_url := Some "http://h" |});
              ("odd", {| s_type := Some "sse"; s_name := None; s_fullCommand := None;
                         s_args := None; s_url := None |})] in
  exists reg, buildMcpServers Fixtures.no_connect cfg tt = (Ok reg, tt) /\
    dict_get reg "fs" = Own (McpStdio "fs" "npx srv").
Proof.
  intros cfg. exists (fold_left mcp_step cfg []).
  assert (H : buildMcpServers Fixtures.no_connect cfg tt = (Ok (fold_left mcp_step cfg []), tt))
    by reflexivity.
  split; [exact H|].
  apply (proj1 (buildMcpServers_lookup unit Fixtures.no_connect cfg tt tt _
                  ltac:(repeat constructor; simpl; intuition discriminate)
                  ltac:(simpl; intuition discriminate) H)
           "fs" _ (or_introl eq_refl)).
  reflexivity.
Defined.

Lemma connect_all_trace :
  forall (W : Type) (connect : mcp_handle -> W -> res unit * W) hs err tr w r tr' w',
    connect_all (traced_connect connect) hs err (tr, w) = (r, (tr', w')) ->
    exists nw, tr' = app nw tr /\ map fst (rev nw) = hs /\
      r = match err with
          | Some e => Throw e
          | None => match first_error (rev nw) with Some e => Throw e | None => Ok tt end
          end.
Proof.
  intros W connect. induction hs as [|h hs IH]; intros err tr w r tr' w' H.
  - simpl in H. exists []. destruct err; inversion H; subst; split; auto.
  - simpl in H. destruct (connect h w) as [c w1] eqn:Ec.
    destruct (IH _ _ _ _ _ _ H) as (nw & -> & Hm & Hr).
    exists (app nw [(h, c)]). rewrite <- app_assoc. split; [reflexivity|].
    rewrite rev_app_distr. simpl. rewrite Hm. split; [reflexivity|].
    rewrite Hr. destruct err as [e|]; [reflexivity|].
    destruct c; reflexivity.
Qed.

Lemma first_error_none :
  forall l, first_error l = None -> forall h c, In (h, c) l -> c = Ok tt.
Proof.
  induction l as [|[h0 [[]|e]] l IH]; simpl; intros H h c Hin; try discriminate;
    [contradiction|].
  destruct Hin as [E|Hin]; [inversion E; reflexivity|exact (IH H h c Hin)].
Qed.

Lemma first_error_some :
  forall l e, first_error l = Some e -> exists h, In (h, Throw e) l.
Proof.
  induction l as [|[h0 [[]|e0]] l IH]; simpl; intros e H; try discriminate.
  - destruct (IH e H) as [h Hin]. exists h. right. exact Hin.
  - inversion H; subst. exists h0. left. reflexivity.
Qed.

(** X9: [buildMcpServers] calls [connect] exactly once for each [stdio]
    server, in configuration order, and for no other server; every
    connection is attempted even when an earlier one fails; the build
    succeeds exactly when every connection succeeds, and otherwise fails
    with the error of a failed connection. *)
Theorem buildMcpServers_connects_all_stdio :
  forall (W : Type) (connect : mcp_handle -> W -> res unit * W) mcpConfig w r tr' w',
    buildMcpServers (traced_connect connect) mcpConfig ([], w) = (r, (tr', w')) ->
    map fst (rev tr') = stdio_handles mcpConfig /\
    match r with
    | Ok _ => forall h c, In (h, c) tr' -> c = Ok tt
    | Throw e => exists h, In (h, Throw e) tr'
    end.
Proof.
  intros W connect mcpConfig w r tr' w' H.
  unfold buildMcpServers, mbind, mret in H.
  destruct (connect_all (traced_connect connect) _ None ([], w)) as [c [tr1 w1]] eqn:Ec.
  destruct (connect_all_trace W connect _ _ _ _ _ _ _ Ec) as (nw & Htr & Hm & Hc).
  rewrite app_nil_r in Htr. subst tr1.
  destruct c as [u|e]; inversion H; subst; split; try exact Hm.
  - intros h c Hin. apply in_rev in Hin. revert Hin.
    destruct (first_error (rev _)) eqn:Ef; [discriminate|].
    intros Hin. exact (first_error_none _ Ef h c Hin).
  - destruct (first_error (rev _)) eqn:Ef; [|discriminate].
    inversion Hc; subst. destruct (first_error_some _ _ Ef) as [h Hin].
    exists h. apply in_rev. exact Hin.
Qed.

Lemma buildMcpServers_connects_all_stdio_witness :
  let cfg := [("a", {| s_type := Some "stdio"; s_name := None; s_fullCommand := Some "a";
                       s_args := None; s_url := None |});
              ("web", {| s_type := Some "http"; s_name := None; s_fullCommand := None;
                         s_args := None; s_url := Some "http://h" |});
              ("b", {| s_type := Some "stdio"; s_name := None; s_fullCommand := Some "b";
                       s_args := None; s_url := None |})] in
  let conn := fun (h : mcp_handle) (w : unit) =>
                match h with
                | McpStdio "a" _ => (Throw "spawn a failed", w)
                | _ => (Ok tt, w)
                end in
  map fst (rev (fst (snd (buildMcpServers (traced_connect conn) cfg ([], tt)))))
  = [McpStdio "a" "a"; McpStdio "b" "b"] /\
  fst (buildMcpServers (traced_connect conn) cfg ([], tt)) = Throw "spawn a failed".
Proof.
  intros cfg conn.
  pose proof (buildMcpServers_connects_all_stdio unit conn cfg tt
                (fst (buildMcpServers (traced_connect conn) cfg ([], tt)))
                (fst (snd (buildMcpServers (traced_connect conn) cfg ([], tt))))
                (snd (snd (buildMcpServers (traced_connect conn) cfg ([], tt)))) eq_refl)
    as [H1 _].
  split; [exact H1|reflexivity].
Defined.

Lemma fold_left_ext_step :
  forall {A B} (f g : A -> B -> A) l a,
    (forall acc x, f acc x = g acc x) -> fold_left f l a = fold_left g l a.
Proof.
  intros A B f g l. induction l as [|x l IH]; intros a H; simpl; [reflexivity|].
  rewrite H. apply IH. exact H.
Qed.

Lemma fold_dict_keys :
  forall {X} (g : string -> AgentSpec -> res X) es acc base,
    fold_left (fun acc '(id, a) => b0 <- acc ;; b <- g id a ;; Ok (dict_set b0 id b))
      es acc = Ok base ->
    forall b0, acc = Ok b0 ->
    forall k, In k (map fst base) <-> In k (map fst b0) \/ In k (map fst es).
Proof.
  intros X g. induction es as [|[id a] es IH]; simpl; intros acc base H b0 Hacc k.
  - rewrite Hacc in H. inversion H; subst. tauto.
  - rewrite Hacc in H. simpl in H. destruct (g id a) as [b|m]; simpl in H.
    + rewrite (IH _ _ H _ eq_refl k). rewrite dict_set_keys. split; intros HH; intuition (subst; auto).
    + rewrite fold_throw in H by (intros [? ?]; reflexivity). discriminate.
Qed.

Lemma fold_dict_inv :
  forall {X} (g : string -> AgentSpec -> res X) (P : string -> X -> Prop) es acc base,
    fold_left (fun acc '(id, a) => b0 <- acc ;; b <- g id a ;; Ok (dict_set b0 id b))
      es acc = Ok base ->
    (forall id a b, In (id, a) es -> g id a = Ok b -> P id b) ->
    forall b0, acc = Ok b0 -> (forall k b, In (k, b) b0 -> P k b) ->
    forall k b, In (k, b) base -> P k b.
Proof.
  intros X g P. induction es as [|[id a] es IH]; simpl; intros acc base H Hg b0 Hacc H0.
  - rewrite Hacc in H. inversion H; subst. exact H0.
  - rewrite Hacc in H. simpl in H. destruct (g id a) as [b|m] eqn:Eg; simpl in H.
    + refine (IH _ _ H _ (dict_set b0 id b) eq_refl _); [intros id' a' b' Hin; apply Hg; right; exact Hin|].
      intros k b' Hin. destruct (dict_set_in _ _ _ _ _ Hin) as [[-> ->]|Hin'].
      * exact (Hg id a b (or_introl eq_refl) Eg).
      * exact (H0 k b' Hin').
    + rewrite fold_throw in H by (intros [? ?]; reflexivity). discriminate.
Qed.

Lemma pass2_generic :
  forall es reg schemas base,
    pass2 es reg schemas base =
    fold_left (fun acc '(id, a) => b0 <- acc ;;
                 b <- (tools <- build_tools base (opt_list (a_tools a)) ;;
                       make_agent reg schemas id a tools) ;;
                 Ok (dict_set b0 id b)) es (Ok []).
Proof.
  intros es reg schemas base. unfold pass2. apply fold_left_ext_step.
  intros [fin|m] [id a]; simpl; [|reflexivity].
  destruct (build_tools base _); reflexivity.
Qed.

Lemma build_tools_from_base :
  forall base ts tools, build_tools base ts = Ok tools ->
    forall t, In t tools -> match t with AsTool _ _ b => exists k, In (k, b) base end.
Proof.
  intros base. induction ts as [|t0 ts IH]; simpl; intros tools H t Hin.
  - inversion H; subst. contradiction.
  - destruct (opt_is (t_kind t0) "agent" && slot_truthy (dict_get base (key_of (t_ref t0)))).
    + destruct (dict_get base (key_of (t_ref t0))) as [b| |] eqn:Eb; try discriminate.
      destruct (build_tools base ts) as [rest|m] eqn:Er; [simpl in H|discriminate].
      inversion H; subst. destruct Hin as [<-|Hin].
      * exists (key_of (t_ref t0)). exact (dict_get_own_in _ _ _ Eb).
      * exact (IH _ eq_refl t Hin).
    + exact (IH _ H t Hin).
Qed.

(** X10: in a config where no agent id is ["__proto__"], when
    [buildAgents] succeeds, the final registry has exactly the
    configured agent ids as keys, and every tool of a final agent wraps
    the tool-less pass-1 agent built from some configured entry: agents
    used as tools never carry tools, so mutually referring agents build
    without recursion. *)
Theorem buildAgents_registry_shape :
  forall es reg schemas fin,
    ~ In "__proto__" (map fst es) ->
    fst (buildAgents (Some es) reg schemas) = Ok fin ->
    (forall k, In k (map fst fin) <-> In k (map fst es)) /\
    (forall id f, In (id, f) fin -> forall t, In t (agent_tools f) ->
       match t with
       | AsTool _ _ b => agent_tools b = [] /\
           exists k a, In (k, a) es /\ make_agent reg schemas k a [] = Ok b
       end).
Proof.
  intros es reg schemas fin _ H. unfold buildAgents in H. simpl opt_list in H. simpl in H.
  destruct (pass1 es reg schemas) as [base|m] eqn:E1; [simpl in H|discriminate].
  rewrite pass2_generic in H. split.
  - intros k. rewrite (fold_dict_keys _ _ _ _ H [] eq_refl k). simpl. tauto.
  - intros id f Hin.
    refine (fold_dict_inv _
              (fun id f => forall t, In t (agent_tools f) ->
                 match t with
                 | AsTool _ _ b => agent_tools b = [] /\
                     exists k a, In (k, a) es /\ make_agent reg schemas k a [] = Ok b
                 end) _ _ _ H _ [] eq_refl _ id f Hin); [|intros k b []].
    intros id' a' f' _ Hg t Ht.
    destruct (build_tools base (opt_list (a_tools a'))) as [tools|m] eqn:Et;
      [simpl in Hg|discriminate].
    rewrite (make_agent_tools _ _ _ _ _ _ Hg) in Ht.
    pose proof (build_tools_from_base _ _ _ Et t Ht) as Hb.
    destruct t as [n d b]. destruct Hb as [k Hk].
    assert (P : exists a, In (k, a) es /\ make_agent reg schemas k a [] = Ok b).
    { unfold pass1 in E1.
      refine (fold_dict_inv _ (fun k b => exists a, In (k, a) es /\ make_agent reg schemas k a [] = Ok b)
                es _ _ E1 _ [] eq_refl _ k b Hk); [|intros ? ? []].
      intros i a0 b0 Hi Hm. exists a0. split; [exact Hi|exact Hm]. }
    destruct P as [a [Ha Hm]]. split; [exact (make_agent_tools _ _ _ _ _ _ Hm)|].
    exists k, a. split; [exact Ha|exact Hm].
Qed.

Lemma buildAgents_registry_shape_witness :
  exists fin,
    fst (buildAgents
           (Some [("a", Build_AgentSpec None None None VUndef None
                          (Some [Build_ToolSpec (Some "agent") (Some "b") None None]));
                  ("b", Build_AgentSpec None None None VUndef None
                          (Some [Build_ToolSpec (Some "agent") (Some "a") None None]))])
           [] []) = Ok fin /\
    ((forall k, In k (map fst fin) <-> In k ["a"; "b"]) /\
     (forall id f, In (id, f) fin -> forall t, In t (agent_tools f) ->
        match t with
        | AsTool _ _ b => agent_tools b = [] /\
            exists k a, In (k, a) [("a", Build_AgentSpec None None None VUndef None
                          (Some [Build_ToolSpec (Some "agent") (Some "b") None None]));
                  ("b", Build_AgentSpec None None None VUndef None
                          (Some [Build_ToolSpec (Some "agent") (Some "a") None None]))]
              /\ make_agent [] [] k a [] = Ok b
        end)).
Proof.
  eexists. split; [cbv; reflexivity|].
  refine (buildAgents_registry_shape
            [("a", Build_AgentSpec None None None VUndef None
                     (Some [Build_ToolSpec (Some "agent") (Some "b") None None]));
             ("b", Build_AgentSpec None None None VUndef None
                     (Some [Build_ToolSpec (Some "agent") (Some "a") None None]))]
            [] [] _ _ _).
  - simpl. intuition discriminate.
  - cbv; reflexivity.
Defined.

(** X11: with [maxTurns <= 0] the propose/review executor makes no model
    call: it returns a [null] output, the history it was given and
    [passed] false, and leaves the world unchanged. *)
Theorem execAgentReviewer_nonpositive_maxTurns :
  forall {W} (run : handle -> list value -> W -> res RunResult * W) fn_call json_stringify
         P R history passCondition maxTurns feedbackInjection carryHistory w,
    (maxTurns <= 0)%Z ->
    execAgentReviewer run fn_call json_stringify P R history passCondition maxTurns
      feedbackInjection carryHistory w = (Ok (VNull, history, false), w).
Proof.
  intros W run fn_call json_stringify P R history passCondition maxTurns fi carry w H.
  unfold execAgentReviewer. apply review_loop_exit. apply Z.ltb_ge. exact H.
Qed.

Lemma execAgentReviewer_nonpositive_maxTurns_witness :
  (-1 <= 0)%Z /\
  execAgentReviewer (traced (Fixtures.pr_run Fixtures.draft Fixtures.review_pass))
    Fixtures.mini_eval Fixtures.json_stub Fixtures.proposer Fixtures.reviewer
    [message "user" "hi"] "score == 'pass'" (-1) "as_user" true ([], tt)
  = (Ok (VNull, [message "user" "hi"], false), ([], tt)).
Proof.
  split; [lia|]. apply (execAgentReviewer_nonpositive_maxTurns _ _ _ _ _ _ _ _ _ _ _). lia.
Defined.

Lemma review_loop_no_carry :
  forall {W} (run : handle -> list value -> W -> res RunResult * W) fn_call json_stringify
         P R passCondition maxTurns fi fuel turn lp hist w o h p w',
    review_loop run fn_call json_stringify fuel P R passCondition maxTurns fi false
      turn lp hist w = (Ok (o, h, p), w') ->
    exists fbs, length fbs <= fuel /\
      h = fold_left (fun h fb => inject_feedback fi fb h) fbs hist.
Proof.
  intros W run fn_call js P R pc mt fi fuel.
  induction fuel as [|f IH]; intros turn lp hist w o h p w' H.
  - simpl in H. destruct (Z.ltb turn mt); inversion H; subst; exists []; auto.
  - destruct (Z.ltb turn mt) eqn:Elt.
    + rewrite review_loop_step in H by exact Elt. cbv zeta in H.
      destruct (run P hist w) as [[pr|e] w1]; cbv iota beta in H; [|discriminate H].
      destruct (run R hist w1) as [[rv|e] w2]; cbv iota beta in H; [|discriminate H].
      destruct (truthy _).
      * inversion H; subst. exists []. simpl. split; [lia|reflexivity].
      * destruct (IH _ _ _ _ _ _ _ _ H) as [fbs [Hl Hh]].
        exists (feedback_of js (or_else (finalOutput rv) (VObj [])) :: fbs).
        simpl. split; [lia|exact Hh].
    + rewrite review_loop_exit in H by exact Elt. inversion H; subst.
      exists []. simpl. split; [lia|reflexivity].
Qed.

(** X12: with [carryHistory] false the propose/review executor never takes
    the history returned by the model: the history it returns is its input
    history extended only by feedback injections, and it is
    the input history itself when [feedbackInjection] is neither
    [as_system] nor [as_user]. *)
Theorem execAgentReviewer_no_carry_history :
  forall {W} (run : handle -> list value -> W -> res RunResult * W) fn_call json_stringify
         P R history passCondition maxTurns feedbackInjection w o h p w',
    execAgentReviewer run fn_call json_stringify P R history passCondition maxTurns
      feedbackInjection false w = (Ok (o, h, p), w') ->
    (exists fbs,
       h = fold_left (fun h fb => inject_feedback feedbackInjection fb h) fbs history) /\
    (feedbackInjection <> "as_system" -> feedbackInjection <> "as_user" -> h = history).
Proof.
  intros W run fn_call js P R history pc mt fi w o h p w' H.
  destruct (review_loop_no_carry _ _ _ _ _ _ _ _ _ _ _ _ _ _ _ _ _ H) as [fbs [Hl Hh]].
  split; [exists fbs; exact Hh|].
  intros H1 H2. subst h. clear H Hl. revert history.
  induction fbs as [|fb fbs IHf]; intros history; simpl; [reflexivity|].
  replace (inject_feedback fi fb history) with history; [apply IHf|].
  unfold inject_feedback.
  destruct (String.eqb_spec fi "as_system"); [contradiction|].
  destruct (String.eqb_spec fi "as_user"); [contradiction|]. reflexivity.
Qed.

Lemma execAgentReviewer_no_carry_history_witness :
  execAgentReviewer (Fixtures.pr_run Fixtures.draft Fixtures.review_fail)
    Fixtures.mini_eval Fixtures.json_stub Fixtures.proposer Fixtures.reviewer
    [message "user" "hi"] "score == 'pass'" 2 "as_user" false tt
  = (Ok (Fixtures.draft,
         [message "user" "hi"; message "user" ("Feedback: " ++ to_string (member Fixtures.review_fail "feedback"));
          message "user" ("Feedback: " ++ to_string (member Fixtures.review_fail "feedback"))], false), tt) /\
  ((exists fbs,
      [message "user" "hi"; message "user" ("Feedback: " ++ to_string (member Fixtures.review_fail "feedback"));
       message "user" ("Feedback: " ++ to_string (member Fixtures.review_fail "feedback"))]
      = fold_left (fun h fb => inject_feedback "as_user" fb h) fbs [message "user" "hi"]) /\
   ("as_user" <> "as_system" -> "as_user" <> "as_user" ->
    [message "user" "hi"; message "user" ("Feedback: " ++ to_string (member Fixtures.review_fail "feedback"));
     message "user" ("Feedback: " ++ to_string (member Fixtures.review_fail "feedback"))]
    = [message "user" "hi"])).
Proof.
  split; [vm_compute; reflexivity|].
  apply (execAgentReviewer_no_carry_history (Fixtures.pr_run Fixtures.draft Fixtures.review_fail)
           Fixtures.mini_eval Fixtures.json_stub Fixtures.proposer Fixtures.reviewer
           [message "user" "hi"] "score == 'pass'" 2 "as_user" tt Fixtures.draft _ false tt).
  vm_compute; reflexivity.
Defined.

Lemma run_steps_unknown_throw :
  forall {W} (run : handle -> list value -> W -> res RunResult * W) fn_call json_stringify
         ags s steps hist o w,
    In s steps ->
    opt_is (st_type s) "single_agent" = false ->
    opt_is (st_type s) "agent_reviewer" = false ->
    is_throw (fst (run_steps run fn_call json_stringify ags steps hist o w)) = true.
Proof.
  intros W run fn_call js ags s steps. induction steps as [|st steps IH];
    intros hist o w Hin H1 H2; [destruct Hin|].
  destruct Hin as [<-|Hin].
  - cbn [run_steps]. rewrite H1, H2. reflexivity.
  - cbn [run_steps]. unfold mbind.
    destruct (opt_is (st_type st) "single_agent").
    + destruct (execSingleAgent run _ hist _ w) as [[oh|e] w1]; [|reflexivity].
      apply IH; assumption.
    + destruct (opt_is (st_type st) "agent_reviewer"); [|reflexivity].
      destruct (execAgentReviewer run fn_call js _ _ hist _ _ _ _ w) as [[[[fo h] b]|e] w1];
        [|reflexivity].
      apply IH; assumption.
Qed.

Lemma run_file_steps_unknown_throw :
  forall {W} (run : handle -> list value -> W -> res RunResult * W) fn_call json_stringify
         ags s steps hist o w,
    In s steps ->
    opt_is (st_type s) "single_agent" = false ->
    opt_is (st_type s) "agent_reviewer" = false ->
    is_throw (fst (run_file_steps run fn_call json_stringify ags steps hist o w)) = true.
Proof.
  intros W run fn_call js ags s steps. induction steps as [|st steps IH];
    intros hist o w Hin H1 H2; [destruct Hin|].
  destruct Hin as [<-|Hin].
  - cbn [run_file_steps]. rewrite H1, H2. reflexivity.
  - cbn [run_file_steps]. unfold mbind.
    destruct (opt_is (st_type st) "single_agent").
    + destruct (execSingleAgent run _ hist _ w) as [[oh|e] w1]; [|reflexivity].
      apply IH; assumption.
    + destruct (opt_is (st_type st) "agent_reviewer"); [|reflexivity].
      destruct (execAgentReviewer run fn_call js _ _ hist _ _ _ _ w) as [[[[fo h] b]|e] w1];
        [|reflexivity].
      apply IH; assumption.
Qed.

(** X13: a flow containing a step whose type is neither [single_agent]
    nor [agent_reviewer] never succeeds, whatever the steps before it
    produce: [runFlow] always ends in an error. *)
Theorem runFlow_unknown_step_type_fails :
  forall {W} (run : handle -> list value -> W -> res RunResult * W) connect fn_call
         json_stringify config userPrompt apiKey env w s,
    In s (steps_of config) ->
    opt_is (st_type s) "single_agent" = false ->
    opt_is (st_type s) "agent_reviewer" = false ->
    is_throw (fst (runFlow run connect fn_call json_stringify config userPrompt apiKey env w))
    = true.
Proof.
  intros W run connect fn_call js config prompt apiKey env w s Hin H1 H2.
  unfold runFlow. destruct (ensureOpenAIKey apiKey env) as [env' [k|e]]; [|reflexivity].
  destruct (validateConfig config); [|reflexivity].
  unfold mbind at 1.
  destruct (buildMcpServers connect _ w) as [[reg|e] w1]; [|reflexivity].
  unfold mbind at 1, lift at 1.
  destruct (fst (buildAgents _ reg _)) as [ags|e]; [|reflexivity].
  unfold mbind.
  pose proof (run_steps_unknown_throw run fn_call js ags s (steps_of config)
                [message "user" prompt] VNull w1 Hin H1 H2) as Ht.
  destruct (run_steps run fn_call js ags (steps_of config) _ VNull w1) as [[out|e] w2];
    [discriminate|reflexivity].
Qed.

Lemma runFlow_unknown_step_type_fails_witness :
  let bad := {| st_type := Some "parallel"; st_agentRef := None; st_proposalAgentRef := None;
                st_reviewerAgentRef := None; st_passCondition := None; st_maxTurns := VUndef;
                st_feedbackInjection := None; st_carryHistory := VUndef |} in
  let config := {| outputSchemas := Some [("basic", Fixtures.basic_schema)];
                   agents := Some [("A", Fixtures.agent_spec "basic" None)];
                   mcpServers := None;
                   flow := Some {| flow_steps := Some [Fixtures.single_step "A"; bad] |} |} in
  In bad (steps_of config) /\ opt_is (st_type bad) "single_agent" = false /\
  opt_is (st_type bad) "agent_reviewer" = false /\
  is_throw (fst (runFlow (Fixtures.echo_run (VObj [("result", VStr "x")])) Fixtures.no_connect
                   Fixtures.mini_eval Fixtures.json_stub config "hi" (Some "sk") None tt)) = true.
Proof.
  intros bad config.
  assert (Hin : In bad (steps_of config)) by (simpl; right; left; reflexivity).
  split; [exact Hin|]. split; [reflexivity|]. split; [reflexivity|].
  exact (runFlow_unknown_step_type_fails _ _ _ _ config "hi" (Some "sk") None tt bad
           Hin eq_refl eq_refl).
Defined.

Lemma obj_get_set_same :
  forall fs k v, obj_get (obj_set fs k v) k = v.
Proof.
  induction fs as [|[k0 v0] fs IH]; intros k v; simpl.
  - rewrite String.eqb_refl. reflexivity.
  - destruct (String.eqb_spec k k0) as [->|Hne]; simpl.
    + rewrite String.eqb_refl. reflexivity.
    + apply String.eqb_neq in Hne. rewrite Hne. apply IH.
Qed.

Lemma obj_get_set_other :
  forall fs k v k', k' <> k -> obj_get (obj_set fs k v) k' = obj_get fs k'.
Proof.
  induction fs as [|[k0 v0] fs IH]; intros k v k' Hne; simpl.
  - apply String.eqb_neq in Hne. rewrite Hne. reflexivity.
  - destruct (String.eqb_spec k k0) as [->|Hk]; simpl.
    + destruct (String.eqb_spec k' k0); [contradiction|reflexivity].
    + destruct (String.eqb k' k0); [reflexivity|apply IH; exact Hne].
Qed.

(** X14: the context the pass condition is evaluated in carries the
    loop's own [turn] and [maxTurns], overriding review fields of the same
    names, and every other field of the review unchanged. *)
Theorem review_ctx_fields :
  forall review turn maxTurns,
    obj_get (review_ctx review turn maxTurns) "turn" = VNum turn /\
    obj_get (review_ctx review turn maxTurns) "maxTurns" = VNum maxTurns /\
    (forall k, k <> "turn" -> k <> "maxTurns" ->
       obj_get (review_ctx review turn maxTurns) k = obj_get (spread_fields review) k).
Proof.
  intros review t m. unfold review_ctx. split; [|split].
  - rewrite obj_get_set_other by discriminate. apply obj_get_set_same.
  - apply obj_get_set_same.
  - intros k H1 H2. rewrite obj_get_set_other by exact H2.
    apply obj_get_set_other. exact H1.
Qed.

Lemma review_ctx_fields_witness :
  obj_get (review_ctx (VObj [("score", VStr "pass"); ("turn", VNum 99)]) 1 8) "turn" = VNum 1 /\
  obj_get (review_ctx (VObj [("score", VStr "pass"); ("turn", VNum 99)]) 1 8) "maxTurns" = VNum 8 /\
  (forall k, k <> "turn" -> k <> "maxTurns" ->
     obj_get (review_ctx (VObj [("score", VStr "pass"); ("turn", VNum 99)]) 1 8) k =
     obj_get (spread_fields (VObj [("score", VStr "pass"); ("turn", VNum 99)])) k).
Proof. exact (review_ctx_fields (VObj [("score", VStr "pass"); ("turn", VNum 99)]) 1 8). Defined.

(** X15: the file runners' final result: a [null] output gives
    [{ result: "" }] without [fileId]; a string output, or an object
    without a truthy [result], is an error; an object with a truthy
    [result] is returned with [fileId] set to the uploaded file's id and
    every other field unchanged. *)
Theorem finishWithFile_shape :
  forall fileId,
    finishWithFile fileId VNull = Ok (VObj [("result", VStr "")]) /\
    (forall s, is_throw (finishWithFile fileId (VStr s)) = true) /\
    (forall fs, truthy (obj_get fs "result") = false ->
       is_throw (finishWithFile fileId (VObj fs)) = true) /\
    (forall fs, truthy (obj_get fs "result") = true ->
       exists fs', finishWithFile fileId (VObj fs) = Ok (VObj fs') /\
         obj_get fs' "fileId" = VStr fileId /\
         forall k, k <> "fileId" -> obj_get fs' k = obj_get fs k).
Proof.
  intros fid. split; [reflexivity|]. split; [reflexivity|]. split.
  - intros fs H. unfold finishWithFile, finishFlow. simpl. rewrite H. reflexivity.
  - intros fs H. unfold finishWithFile, finishFlow. simpl. rewrite H. simpl.
    eexists. split; [reflexivity|]. split; [apply obj_get_set_same|].
    intros k Hk. apply obj_get_set_other. exact Hk.
Qed.

Lemma finishWithFile_shape_witness :
  finishWithFile "file-1" (VObj [("result", VStr "x"); ("fileId", VStr "old")])
  = Ok (VObj [("result", VStr "x"); ("fileId", VStr "file-1")]) /\
  (finishWithFile "file-1" VNull = Ok (VObj [("result", VStr "")]) /\
   (forall s, is_throw (finishWithFile "file-1" (VStr s)) = true) /\
   (forall fs, truthy (obj_get fs "result") = false ->
      is_throw (finishWithFile "file-1" (VObj fs)) = true) /\
   (forall fs, truthy (obj_get fs "result") = true ->
      exists fs', finishWithFile "file-1" (VObj fs) = Ok (VObj fs') /\
        obj_get fs' "fileId" = VStr "file-1" /\
        forall k, k <> "fileId" -> obj_get fs' k = obj_get fs k)).
Proof. split; [reflexivity|exact (finishWithFile_shape "file-1")]. Defined.

(** X16: in the file runners, deleting the uploaded file never changes the
    outcome: the result and the API-key environment are the same whatever
    [deleteFileAfter] is and whether the deletion succeeds or fails. *)
Theorem flowWithFile_result_independent_of_delete :
  forall {W Buf} (run : handle -> list value -> W -> res RunResult * W) connect fn_call
         json_stringify make_client (upload : upload_src Buf -> W -> res string * W)
         delete1 delete2 src config userPrompt apiKey deleteFileAfter1 deleteFileAfter2 env w,
    fst (fst (flowWithFile run connect fn_call json_stringify make_client upload delete1
                src config userPrompt apiKey deleteFileAfter1 env w)) =
    fst (fst (flowWithFile run connect fn_call json_stringify make_client upload delete2
                src config userPrompt apiKey deleteFileAfter2 env w)) /\
    fst (snd (flowWithFile run connect fn_call json_stringify make_client upload delete1
                src config userPrompt apiKey deleteFileAfter1 env w)) =
    fst (snd (flowWithFile run connect fn_call json_stringify make_client upload delete2
                src config userPrompt apiKey deleteFileAfter2 env w)).
Proof.
  intros W Buf run connect fn_call js mk up d1 d2 src config prompt apiKey dfa1 dfa2 env w.
  unfold flowWithFile.
  destruct (ensureOpenAIKey apiKey env) as [env' [k|e]]; [|split; reflexivity].
  destruct (validateConfig config); [|split; reflexivity].
  destruct (mk k w) as [[u|e] w1]; [|split; reflexivity].
  destruct (up src w1) as [[fid|m] w2]; [|split; reflexivity].
  destruct (file_flow_body run connect fn_call js config fid prompt w2) as [[out|e] w3];
    [|split; reflexivity].
  destruct (delete_after dfa1); [destruct (d1 fid w3) as [[]]|];
    destruct (delete_after dfa2); try destruct (d2 fid w3) as [[]]; split; reflexivity.
Qed.

(** X17: the file runners write at most one warning, and only when
    deletion was enabled and the whole run got through: the key check,
    [validateConfig], the client, the upload (giving the file id) and
    every step (giving the output) succeeded, after which
    [client.files.del] on that file id failed; the warning names that
    file id and the error message, and the result is the standardized
    output of that run. *)
Theorem flowWithFile_warning_only_on_failed_delete :
  forall {W Buf} (run : handle -> list value -> W -> res RunResult * W) connect fn_call
         json_stringify make_client (upload : upload_src Buf -> W -> res string * W)
         delete_file src config userPrompt apiKey deleteFileAfter env w,
    let '((r, warns), (_, w')) :=
      flowWithFile run connect fn_call json_stringify make_client upload delete_file
        src config userPrompt apiKey deleteFileAfter env w in
    warns = [] \/
    (delete_after deleteFileAfter = true /\
     exists k u w1 fileId w2 out w3 m,
       snd (ensureOpenAIKey apiKey env) = Ok k /\
       validateConfig config = Ok tt /\
       make_client k w = (Ok u, w1) /\
       upload src w1 = (Ok fileId, w2) /\
       file_flow_body run connect fn_call json_stringify config fileId userPrompt w2
         = (Ok out, w3) /\
       delete_file fileId w3 = (Throw m, w') /\
       warns = ["Warning: Failed to delete uploaded file " ++ fileId ++ ": " ++ m] /\
       r = finishWithFile fileId out).
Proof.
  intros W Buf run connect fn_call js mk up del src config prompt apiKey dfa env w.
  unfold flowWithFile.
  destruct (ensureOpenAIKey apiKey env) as [env' [k|e]] eqn:Ek; [|left; reflexivity].
  destruct (validateConfig config) as [[]|e] eqn:Ev; [|left; reflexivity].
  destruct (mk k w) as [[u|e] w1] eqn:Em; [|left; reflexivity].
  destruct (up src w1) as [[fid|m] w2] eqn:Eu; [|left; reflexivity].
  destruct (file_flow_body run connect fn_call js config fid prompt w2) as [[out|e] w3] eqn:Eb;
    [|left; reflexivity].
  destruct (delete_after dfa) eqn:Ed; [|left; reflexivity].
  destruct (del fid w3) as [[u'|m] w4] eqn:Edel; [left; reflexivity|].
  right. split; [reflexivity|]. exists k, u, w1, fid, w2, out, w3, m.
  repeat split; first [assumption | reflexivity].
Qed.

(** X18: a file-runner flow containing a step of unknown type fails after
    the upload and never deletes the uploaded file: its whole outcome is
    the one with [deleteFileAfter: false], and it writes no warning. *)
Theorem flowWithFile_unknown_step_keeps_file :
  forall {W Buf} (run : handle -> list value -> W -> res RunResult * W) connect fn_call
         json_stringify make_client (upload : upload_src Buf -> W -> res string * W)
         delete_file src config userPrompt apiKey deleteFileAfter env w s,
    In s (steps_of config) ->
    opt_is (st_type s) "single_agent" = false ->
    opt_is (st_type s) "agent_reviewer" = false ->
    is_throw (fst (fst (flowWithFile run connect fn_call json_stringify make_client upload
                          delete_file src config userPrompt apiKey deleteFileAfter env w)))
    = true /\
    snd (fst (flowWithFile run connect fn_call json_stringify make_client upload
                delete_file src config userPrompt apiKey deleteFileAfter env w)) = [] /\
    flowWithFile run connect fn_call json_stringify make_client upload delete_file
      src config userPrompt apiKey deleteFileAfter env w =
    flowWithFile run connect fn_call json_stringify make_client upload delete_file
      src config userPrompt apiKey (VBool false) env w.
Proof.
  intros W Buf run connect fn_call js mk up del src config prompt apiKey dfa env w s
         Hin H1 H2.
  unfold flowWithFile.
  destruct (ensureOpenAIKey apiKey env) as [env' [k|e]]; [|repeat split].
  destruct (validateConfig config); [|repeat split].
  destruct (mk k w) as [[u|e] w1]; [|repeat split].
  destruct (up src w1) as [[fid|m] w2]; [|repeat split].
  unfold file_flow_body, mbind, lift.
  destruct (buildMcpServers connect _ w2) as [[reg|e] w3]; [|repeat split].
  destruct (fst (buildAgents _ reg _)) as [ags|e]; [|repeat split].
  pose proof (run_file_steps_unknown_throw run fn_call js ags s (steps_of config)
                [file_prompt fid prompt] VNull w3 Hin H1 H2) as Ht.
  destruct (run_file_steps run fn_call js ags (steps_of config) _ VNull w3) as [[out|e] w4];
    [discriminate|repeat split].
Qed.

Lemma flowWithFile_unknown_step_keeps_file_witness :
  let bad := {| st_type := Some "parallel"; st_agentRef := None; st_proposalAgentRef := None;
                st_reviewerAgentRef := None; st_passCondition := None; st_maxTurns := VUndef;
                st_feedbackInjection := None; st_carryHistory := VUndef |} in
  let config := {| outputSchemas := Some [("basic", Fixtures.basic_schema)];
                   agents := Some [("A", Fixtures.agent_spec "basic" None)];
                   mcpServers := None;
                   flow := Some {| flow_steps := Some [Fixtures.single_step "A"; bad] |} |} in
  let mk := fun (_ : string) (w : unit) => (Ok tt, w) in
  let up := fun (_ : upload_src unit) (w : unit) => (Ok "file-1", w) in
  let del := fun (_ : string) (w : unit) => (Throw "gone", w) in
  In bad (steps_of config) /\ opt_is (st_type bad) "single_agent" = false /\
  opt_is (st_type bad) "agent_reviewer" = false /\
  (is_throw (fst (fst (flowWithFile (Fixtures.echo_run (VObj [("result", VStr "x")]))
                         Fixtures.no_connect Fixtures.mini_eval Fixtures.json_stub mk up del
                         (FromPath "notes.txt") config "hi" (Some "sk") VUndef None tt)))
   = true /\
   snd (fst (flowWithFile (Fixtures.echo_run (VObj [("result", VStr "x")]))
               Fixtures.no_connect Fixtures.mini_eval Fixtures.json_stub mk up del
               (FromPath "notes.txt") config "hi" (Some "sk") VUndef None tt)) = [] /\
   flowWithFile (Fixtures.echo_run (VObj [("result", VStr "x")]))
     Fixtures.no_connect Fixtures.mini_eval Fixtures.json_stub mk up del
     (FromPath "notes.txt") config "hi" (Some "sk") VUndef None tt =
   flowWithFile (Fixtures.echo_run (VObj [("result", VStr "x")]))
     Fixtures.no_connect Fixtures.mini_eval Fixtures.json_stub mk up del
     (FromPath "notes.txt") config "hi" (Some "sk") (VBool false) None tt).
Proof.
  intros bad config mk up del.
  assert (Hin : In bad (steps_of config)) by (simpl; right; left; reflexivity).
  split; [exact Hin|]. split; [reflexivity|]. split; [reflexivity|].
  exact (flowWithFile_unknown_step_keeps_file _ _ _ _ mk up del (FromPath "notes.txt")
           config "hi" (Some "sk") VUndef None tt bad Hin eq_refl eq_refl).
Defined.

Lemma dict_get_nodup_in :
  forall {A} (d : list (string * A)) k a,
    NoDup (map fst d) -> In (k, a) d -> dict_get d k = Own a.
Proof.
  intros A d k a. induction d as [|[k0 a0] d IH]; simpl; intros Hnd Hin; [contradiction|].
  inversion Hnd as [|? ? Hn0 Hnd']; subst.
  destruct Hin as [E|Hin].
  - inversion E; subst. rewrite String.eqb_refl. reflexivity.
  - destruct (String.eqb_spec k k0) as [->|_]; [|exact (IH Hnd' Hin)].
    exfalso. apply Hn0. apply (in_map fst) in Hin. exact Hin.
Qed.

Lemma dict_get_notin :
  forall {A} (d : list (string * A)) k,
    ~ In k (map fst d) -> dict_get d k = dict_get [] k.
Proof.
  intros A d k. induction d as [|[k0 a0] d IH]; simpl; intros Hn; [reflexivity|].
  destruct (String.eqb_spec k k0) as [->|_]; [tauto|]. apply IH. tauto.
Qed.

Lemma mcp_registry_lookup :
  forall mcpConfig r,
    NoDup (map fst mcpConfig) ->
    dict_get (fold_left mcp_step mcpConfig []) r =
    match dict_get mcpConfig r with
    | Own cfg => match server_entry r cfg with Some h => Own h | None => dict_get [] r end
    | _ => dict_get [] r
    end.
Proof.
  intros mcpConfig r Hnd.
  destruct (in_dec String.string_dec r (map fst mcpConfig)) as [Hin|Hn].
  - apply in_map_iff in Hin as [[r' cfg] [Er Hin]]. simpl in Er. subst r'.
    rewrite (dict_get_nodup_in _ _ _ Hnd Hin), (mcp_fold_in _ _ _ _ Hnd Hin).
    reflexivity.
  - rewrite (mcp_fold_other _ _ _ Hn), (dict_get_notin _ _ Hn). simpl.
    destruct (is_proto_key r); reflexivity.
Qed.

(** X19: in a config where no server id is ["__proto__"], the MCP
    servers an agent gets are read off the server config: in the order of
    its [mcpServerRefs], each ref naming a configured [stdio] server gives
    that server's handle, each ref naming an [http] server with a
    non-empty [url] gives the URL, a ref that names a member of
    [Object.prototype] (such as ["toString"]) and no configured server of
    type [stdio] or [http] gives that inherited member, and every other
    ref (an unconfigured id, a server of another type, an http server
    without a URL) is silently dropped. *)
Theorem agent_mcp_servers_from_config :
  forall {W} (connect : mcp_handle -> W -> res unit * W) mcpConfig w w' reg refs,
    NoDup (map fst mcpConfig) ->
    ~ In "__proto__" (map fst mcpConfig) ->
    buildMcpServers connect mcpConfig w = (Ok reg, w') ->
    resolve_mcp reg refs =
    flat_map (fun r =>
                match dict_get mcpConfig r with
                | Own cfg =>
                    match server_entry r cfg with
                    | Some (McpStdio n c) => [MRHandle (McpStdio n c)]
                    | Some (McpHttp (Some u)) =>
                        if String.eqb u "" then [] else [MRHandle (McpHttp (Some u))]
                    | Some (McpHttp None) => []
                    | None => if is_proto_key r then [MRBuiltin r] else []
                    end
                | _ => if is_proto_key r then [MRBuiltin r] else []
                end) refs.
Proof.
  intros W connect mcpConfig w w' reg refs Hnd _ Hb.
  rewrite (buildMcpServers_registry _ _ _ _ _ _ Hb).
  induction refs as [|r refs IH]; [reflexivity|].
  simpl. rewrite (mcp_registry_lookup _ _ Hnd), IH.
  destruct (dict_get mcpConfig r) as [cfg| |].
  - destruct (server_entry r cfg) as [[n c|[u|]]|]; try reflexivity.
    + destruct u; reflexivity.
    + simpl. destruct (is_proto_key r); reflexivity.
  - simpl. destruct (is_proto_key r); reflexivity.
  - simpl. destruct (is_proto_key r); reflexivity.
Qed.

Lemma agent_mcp_servers_from_config_witness :
  let cfg := [("fs", {| s_type := Some "STDIO"; s_name := None; s_fullCommand := Some "npx";
                        s_args := Some ["server-fs"]; s_url := None |});
              ("web", {| s_type := Some "http"; s_name := None; s_fullCommand := None;
                         s_args := None; s_url := None |})] in
  NoDup (map fst cfg) /\ ~ In "__proto__" (map fst cfg) /\
  buildMcpServers Fixtures.no_connect cfg tt = (Ok (fold_left mcp_step cfg []), tt) /\
  resolve_mcp (fold_left mcp_step cfg []) ["web"; "fs"; "db"; "toString"] =
  [MRHandle (McpStdio "fs" "npx server-fs"); MRBuiltin "toString"].
Proof.
  intros cfg.
  assert (Hnd : NoDup (map fst cfg)) by (repeat constructor; simpl; intuition discriminate).
  assert (Hp : ~ In "__proto__" (map fst cfg)) by (simpl; intuition discriminate).
  assert (Hb : buildMcpServers Fixtures.no_connect cfg tt = (Ok (fold_left mcp_step cfg []), tt))
    by reflexivity.
  split; [exact Hnd|]. split; [exact Hp|]. split; [exact Hb|].
  rewrite (agent_mcp_servers_from_config Fixtures.no_connect cfg tt tt _ _ Hnd Hp Hb).
  reflexivity.
Defined.
